(** * local-mcp-proxy.cjs: the streaming reverse proxy behind [/sse]

    A shallow embedding of [proxySSE] and of the listeners it registers,
    together with the fragment of the Node.js runtime it calls
    ([http.ServerResponse], [http.ClientRequest], [URL], [JSON.stringify]).

    Conventions.
    - JavaScript strings are modelled as [string] (sequences of 8-bit
      code units); [undefined]/[null] as [None].
    - Header objects ([req.headers], [ur.headers], [options.headers], the
      header table of the response) are finite maps from names to values.
      Node stores inbound header names and the response's header table in
      lower case.
    - A proxied exchange is a [Session]; the runtime delivers [Event]s to
      it and [dispatch] runs the listener registered for the event. *)

From stdpp Require Import gmap strings list.
From Stdlib Require Import Ascii String ZArith.

Local Open Scope Z_scope.

(** ** JavaScript primitives *)

Module JS.

(** [ToBoolean] on a string-or-undefined value. *)
Definition truthy (x : option string) : bool :=
  match x with
  | None => false
  | Some EmptyString => false
  | Some (String _ _) => true
  end.

(** [x || d] for a string-or-undefined [x] and a string [d]. *)
Definition or_else (x : option string) (d : string) : string :=
  match x with
  | Some (String a s) => String a s
  | _ => d
  end.

(** [n || d] for a number-or-undefined [n]; [0] is falsy. *)
Definition or_elseZ (n : option Z) (d : Z) : Z :=
  match n with
  | Some k => if k =? 0 then d else k
  | None => d
  end.

(** [String.prototype.startsWith]. *)
Fixpoint startsWith (s p : string) : bool :=
  match p, s with
  | EmptyString, _ => true
  | String b p', String a s' => if Ascii.eqb a b then startsWith s' p' else false
  | String _ _, EmptyString => false
  end.

(** [String.prototype.includes]. *)
Fixpoint includes (s p : string) : bool :=
  if startsWith s p then true
  else match s with
       | EmptyString => false
       | String _ s' => includes s' p
       end.

(** A value interpolated in a template literal: [undefined] prints as
    the word. *)
Definition interpolate (x : option string) : string :=
  match x with
  | Some s => s
  | None => "undefined"
  end.

Definition lower (a : ascii) : ascii :=
  let n := nat_of_ascii a in
  if (Nat.leb 65 n && Nat.leb n 90)%bool then ascii_of_nat (n + 32) else a.

(** [String.prototype.toLowerCase] on the ASCII range. *)
Fixpoint toLowerCase (s : string) : string :=
  match s with
  | EmptyString => EmptyString
  | String a s' => String (lower a) (toLowerCase s')
  end.

(** A thrown [Error] object; only its [message] is ever read. *)
Record Error := mkError { message : string }.

(** The completion of a call: a normal value or a thrown error. *)
Inductive Completion (A : Type) :=
| Normal (a : A)
| Throw (e : Error).
Arguments Normal {A} a.
Arguments Throw {A} e.

End JS.

(** ** [JSON.stringify] on the objects the proxy serialises *)

Module JSON.

(** The proxy serialises flat object literals whose members are strings
    or booleans: [{ error, message }] and [{ ok: true }]. *)
Inductive scalar :=
| Str (s : string)
| Bool (b : bool).

Definition object := list (string * scalar).

Definition dquote : ascii := ascii_of_nat 34.
Definition bslash : ascii := ascii_of_nat 92.

Definition hexdigit (n : nat) : ascii :=
  if Nat.ltb n 10 then ascii_of_nat (48 + n) else ascii_of_nat (87 + n).

(** One code unit inside a JSON string (ECMA-262, QuoteJSONString). *)
Definition escape (a : ascii) : string :=
  let n := nat_of_ascii a in
  if Nat.eqb n 34 then String bslash (String dquote EmptyString)
  else if Nat.eqb n 92 then String bslash (String bslash EmptyString)
  else if Nat.eqb n 8 then String bslash "b"
  else if Nat.eqb n 12 then String bslash "f"
  else if Nat.eqb n 10 then String bslash "n"
  else if Nat.eqb n 13 then String bslash "r"
  else if Nat.eqb n 9 then String bslash "t"
  else if Nat.ltb n 32 then
    String bslash
      ("u00" +:+ String (hexdigit (n / 16)) (String (hexdigit (n mod 16)) EmptyString))
  else String a EmptyString.

Fixpoint escape_all (s : string) : string :=
  match s with
  | EmptyString => EmptyString
  | String a s' => escape a +:+ escape_all s'
  end.

Definition quote (s : string) : string :=
  String dquote (escape_all s +:+ String dquote EmptyString).

Definition scalar_text (v : scalar) : string :=
  match v with
  | Str s => quote s
  | Bool true => "true"
  | Bool false => "false"
  end.

Definition member (kv : string * scalar) : string :=
  quote (fst kv) +:+ ":" +:+ scalar_text (snd kv).

Fixpoint members (fs : object) : string :=
  match fs with
  | [] => EmptyString
  | [kv] => member kv
  | kv :: fs' => member kv +:+ "," +:+ members fs'
  end.

(** [JSON.stringify(o)] for an object literal [o]. *)
Definition stringify (o : object) : string :=
  "{" +:+ members o +:+ "}".

End JSON.

(** ** Runtime objects *)

(** The inbound request [req] ([http.IncomingMessage]). *)
Module Req.
Record t := mk {
  method : string;
  url : string;
  headers : gmap string string
}.
End Req.

(** The upstream response [ur] handed to the callback of
    [client.request]. *)
Module Ur.
Record t := mk {
  statusCode : option Z;
  headers : gmap string string
}.
End Ur.

(** The fields of a parsed [URL] the proxy reads. *)
Module URL.
Record t := mk {
  protocol : string;
  hostname : string;
  port : string;
  pathname : string;
  search : string;
  searchParams : list (string * string)
}.

(** [u.searchParams.get(name)]: the first value stored under [name]. *)
Fixpoint lookup_first (ps : list (string * string)) (name : string) : option string :=
  match ps with
  | [] => None
  | (k, v) :: ps' => if String.eqb k name then Some v else lookup_first ps' name
  end.

Definition get (u : t) (name : string) : option string :=
  lookup_first (searchParams u) name.
End URL.

Inductive Client := http | https.

(** [t.port || 443] is a string when the URL names a port and a number
    otherwise. *)
Inductive Port :=
| PortString (s : string)
| PortNumber (n : Z).

(** The [options] literal of [proxySSE]. *)
Module Options.
Record t := mk {
  method : string;
  protocol : string;
  hostname : string;
  port : Port;
  path : string;
  headers : gmap string string
}.
End Options.

(** The outbound request [upstream] ([http.ClientRequest]): what has been
    written to it so far, whether [end()] has been called, and whether it
    has been torn down by [destroy()]. *)
Module Up.
Record t := mk {
  client : Client;
  options : Options.t;
  written : list string;
  ended : bool;
  destroyed : bool
}.

Definition create (c : Client) (o : Options.t) : t := mk c o [] false false.

(** [upstream.write(chunk)] on a request not yet ended. *)
Definition write (chunk : string) (u : t) : t :=
  mk (client u) (options u) (written u ++ [chunk]) (ended u) (destroyed u).

(** [upstream.end()]. *)
Definition end_ (u : t) : t :=
  mk (client u) (options u) (written u) true (destroyed u).

(** [upstream.destroy()]; [proxySSE] has no call to it. *)
Definition destroy (u : t) : t :=
  mk (client u) (options u) (written u) (ended u) true.
End Up.

(** The response [res] to the caller ([http.ServerResponse]). The status
    line and the header table are committed once [headersSent] is set;
    [body] lists, in order, the chunks the proxy has handed to
    [res.write] and [res.end] while the response was open. It is the
    record of what the proxy writes: what the runtime does with a chunk
    once the caller's socket is gone is not part of it. Validation of
    the numeric range of a status code is not modelled. *)
Module Res.
Record t := mk {
  headersSent : bool;
  statusCode : Z;
  headers : gmap string string;
  body : list string;
  finished : bool
}.

Definition fresh : t := mk false 200 ∅ [] false.

Definition ERR_HTTP_HEADERS_SENT : JS.Error :=
  JS.mkError "Cannot set headers after they are sent to the client".
Definition ERR_HTTP_HEADERS_SENT_write : JS.Error :=
  JS.mkError "Cannot write headers after they are sent to the client".
Definition ERR_STREAM_WRITE_AFTER_END : JS.Error :=
  JS.mkError "write after end".

Definition put (name value : string) (r : t) : t :=
  mk (headersSent r) (statusCode r) (<[JS.toLowerCase name := value]> (headers r))
     (body r) (finished r).

(** [res.setHeader(name, value)]. *)
Definition setHeader (name value : string) (r : t) : JS.Completion t :=
  if headersSent r then JS.Throw ERR_HTTP_HEADERS_SENT
  else JS.Normal (put name value r).

(** The header table after the entries of an object literal are stored
    in it, one [setHeader] after the other. *)
Definition merge (hs : list (string * string)) (table : gmap string string) :
    gmap string string :=
  foldl (fun acc kv => <[JS.toLowerCase (fst kv) := snd kv]> acc) table hs.

(** [res.writeHead(status, headers)]: the given headers are merged over
    those set before, then the head is committed. *)
Definition writeHead (status : Z) (hs : list (string * string)) (r : t) : JS.Completion t :=
  if headersSent r then JS.Throw ERR_HTTP_HEADERS_SENT_write
  else JS.Normal (mk true status (merge hs (headers r)) (body r) (finished r)).

(** [res.write(chunk)]: commits the head if it is still pending. Writing
    to a finished response raises ERR_STREAM_WRITE_AFTER_END, for which
    the proxy has no listener. *)
Definition write (chunk : string) (r : t) : JS.Completion t :=
  if finished r then JS.Throw ERR_STREAM_WRITE_AFTER_END
  else JS.Normal (mk true (statusCode r) (headers r) (body r ++ [chunk]) false).

(** What [res.end(data)] and [res.end()] do to the response: a finished
    response stays as it is. *)
Definition end_ (data : option string) (r : t) : t :=
  if finished r then r
  else mk true (statusCode r) (headers r)
          (body r ++ match data with Some d => [d] | None => [] end) true.
End Res.

(** ** The runtime services the proxy calls *)

(** [URL_new input base] is [new URL(input, base)] ([base = None] for the
    one-argument form); [request_check client options] is the synchronous
    validation [client.request(options, ...)] performs before it returns,
    [Some e] when it throws [e]. Both are left to the runtime. *)
Class Platform := {
  URL_new : string → option string → JS.Completion URL.t;
  request_check : Client → Options.t → option JS.Error
}.

(** ** Sessions and the effects of listeners *)

(** One proxied exchange: the caller's response, the outbound request
    once [client.request] has created it, which listeners are registered,
    and what stopped the process, if anything did: an exception that
    escaped a listener or an ['error'] event nothing listens for. *)
Record Session := mkSession {
  res : Res.t;
  upstream : option Up.t;
  on_error : bool;
  on_body : bool;
  on_ur : bool;
  uncaught : option JS.Error
}.

Definition start (r : Res.t) : Session := mkSession r None false false false None.

Definition set_res (r : Res.t) (s : Session) : Session :=
  mkSession r (upstream s) (on_error s) (on_body s) (on_ur s) (uncaught s).
Definition set_upstream (u : Up.t) (s : Session) : Session :=
  mkSession (res s) (Some u) (on_error s) (on_body s) (on_ur s) (uncaught s).
Definition set_on_error (s : Session) : Session :=
  mkSession (res s) (upstream s) true (on_body s) (on_ur s) (uncaught s).
Definition set_on_body (s : Session) : Session :=
  mkSession (res s) (upstream s) (on_error s) true (on_ur s) (uncaught s).
Definition set_on_ur (s : Session) : Session :=
  mkSession (res s) (upstream s) (on_error s) (on_body s) true (uncaught s).
Definition set_uncaught (e : JS.Error) (s : Session) : Session :=
  mkSession (res s) (upstream s) (on_error s) (on_body s) (on_ur s) (Some e).

(** Code that reads and updates the session and may throw. *)
Definition M (A : Type) : Type := Session → JS.Completion A * Session.

#[global] Instance M_ret : MRet M := fun A a s => (JS.Normal a, s).

#[global] Instance M_bind : MBind M := fun A B k m s =>
  match m s with
  | (JS.Normal a, s') => k a s'
  | (JS.Throw e, s') => (JS.Throw e, s')
  end.

Definition throw {A} (e : JS.Error) : M A := fun s => (JS.Throw e, s).

(** [try { m } catch (err) { h err }]. *)
Definition try_catch {A} (m : M A) (h : JS.Error → M A) : M A :=
  fun s =>
    match m s with
    | (JS.Normal a, s') => (JS.Normal a, s')
    | (JS.Throw e, s') => h e s'
    end.

Definition when (b : bool) (m : M unit) : M unit := if b then m else mret tt.

(** Lifting the operations of [res]. *)
Definition on_res (f : Res.t → JS.Completion Res.t) : M unit :=
  fun s =>
    match f (res s) with
    | JS.Normal r => (JS.Normal tt, set_res r s)
    | JS.Throw e => (JS.Throw e, s)
    end.

Definition res_setHeader (name value : string) : M unit := on_res (Res.setHeader name value).
Definition res_writeHead (status : Z) (hs : list (string * string)) : M unit :=
  on_res (Res.writeHead status hs).
Definition res_write (chunk : string) : M unit := on_res (Res.write chunk).
(** [res.end(data)] and [res.end()]. The call returns normally. On a
    finished response [res.end()] is ignored, but [res.end(data)] is a
    write after the end: the runtime reports it as an ['error'] event of
    the response, for which nothing listens, so the process stops. *)
Definition res_end (data : option string) : M unit :=
  fun s =>
    match data with
    | Some _ =>
        if Res.finished (res s)
        then (JS.Normal tt, set_uncaught Res.ERR_STREAM_WRITE_AFTER_END s)
        else (JS.Normal tt, set_res (Res.end_ data (res s)) s)
    | None => (JS.Normal tt, set_res (Res.end_ data (res s)) s)
    end.
Definition res_headersSent : M bool := fun s => (JS.Normal (Res.headersSent (res s)), s).

(** Registering a listener only records that it is there. *)
Definition register (f : Session → Session) : M unit := fun s => (JS.Normal tt, f s).

Definition application_json : list (string * string) :=
  [("Content-Type", "application/json")].

(** ** The listeners of [proxySSE] *)

(** [cors(res)]. *)
Definition cors : M unit :=
  res_setHeader "Access-Control-Allow-Origin" "*";;
  res_setHeader "Access-Control-Allow-Methods" "GET,POST,OPTIONS,HEAD";;
  res_setHeader "Access-Control-Allow-Headers" "Content-Type, Authorization, Accept, Cache-Control".

(** [upstream.on('error', (e) => ...)]. *)
Definition upstream_error (e : JS.Error) : M unit :=
  sent ← res_headersSent;
  when (negb sent) (res_writeHead 502 application_json);;
  res_end (Some (JSON.stringify
                   [("error", JSON.Str "bad gateway"); ("message", JSON.Str (JS.message e))])).

(** [upstream.write(c)]. On a request that was already ended the runtime
    reports the misuse as an ['error'] event of the request, which is
    thrown when nothing listens for it. *)
Definition upstream_write (c : string) : M unit :=
  fun s =>
    match upstream s with
    | Some u =>
        if Up.ended u then
          if on_error s then upstream_error (JS.mkError "write after end") s
          else throw (JS.mkError "write after end") s
        else (JS.Normal tt, set_upstream (Up.write c u) s)
    | None => (JS.Normal tt, s)
    end.

(** [upstream.end()]. *)
Definition upstream_end : M unit :=
  fun s =>
    match upstream s with
    | Some u => (JS.Normal tt, set_upstream (Up.end_ u) s)
    | None => (JS.Normal tt, s)
    end.

(** The head written to the caller when the upstream response arrives. *)
Definition response_head (ur : Ur.t) : Z * list (string * string) :=
  let isSSE :=
    JS.includes (JS.or_else (Ur.headers ur !! "content-type") EmptyString) "text/event-stream" in
  (JS.or_elseZ (Ur.statusCode ur) 200,
   [("Content-Type",
     if isSSE then "text/event-stream"
     else JS.or_else (Ur.headers ur !! "content-type") "application/json");
    ("Cache-Control", "no-cache");
    ("Connection", "keep-alive");
    ("Access-Control-Allow-Origin", "*")]).

(** The callback [(ur) => ...] of [client.request]: it writes the head
    and registers the ['data'], ['end'] and ['error'] listeners of [ur]. *)
Definition upstream_response (ur : Ur.t) : M unit :=
  res_writeHead (fst (response_head ur)) (snd (response_head ur));;
  register set_on_ur.

(** [ur.on('data', (chunk) => res.write(chunk))]. *)
Definition ur_data (chunk : string) : M unit := res_write chunk.
(** [ur.on('end', () => res.end())]. *)
Definition ur_end : M unit := res_end None.
(** [ur.on('error', () => { try { res.end(); } catch (_) {} })]. *)
Definition ur_error : M unit := try_catch (res_end None) (fun _ => mret tt).

(** [req.on('data', (c) => upstream.write(c))]. *)
Definition req_data (c : string) : M unit := upstream_write c.
(** [req.on('end', () => upstream.end())]. *)
Definition req_end : M unit := upstream_end.

(** ** [proxySSE] *)

Section Proxy.
Context `{Platform}.

Definition new_URL (input : string) (base : option string) : M URL.t :=
  fun s => (URL_new input base, s).

(** [client.request(options, callback)]: when the runtime accepts the
    options the outbound request exists from here on, with [callback]
    waiting for the response. *)
Definition client_request (c : Client) (o : Options.t) : M unit :=
  fun s =>
    match request_check c o with
    | Some e => (JS.Throw e, s)
    | None => (JS.Normal tt, set_upstream (Up.create c o) s)
    end.

Definition is_https (t : URL.t) : bool := String.eqb (URL.protocol t) "https:".

Definition select_client (t : URL.t) : Client := if is_https t then https else http.

(** The [options] literal. *)
Definition make_options (req : Req.t) (t : URL.t) : Options.t :=
  {| Options.method := Req.method req;
     Options.protocol := URL.protocol t;
     Options.hostname := URL.hostname t;
     Options.port :=
       match URL.port t with
       | EmptyString => PortNumber (if is_https t then 443 else 80)
       | p => PortString p
       end;
     Options.path := URL.pathname t +:+ JS.or_else (Some (URL.search t)) EmptyString;
     Options.headers :=
       {[ "Accept" := JS.or_else (Req.headers req !! "accept") "text/event-stream";
          "Content-Type" := JS.or_else (Req.headers req !! "content-type") "application/json";
          "Cache-Control" := "no-cache";
          "Connection" := "keep-alive";
          "User-Agent" := "mcp-inspector-local-proxy" ]} |}.

(** The base [`http://${req.headers.host}`] against which [req.url] is
    resolved. *)
Definition base_of (req : Req.t) : string :=
  "http://" +:+ JS.interpolate (Req.headers req !! "host").

(** The [try] block of [proxySSE], from [cors(res)] on. *)
Definition proxySSE_body (req : Req.t) : M unit :=
  cors;;
  u ← new_URL (Req.url req) (Some (base_of req));
  match URL.get u "url" with
  | None | Some EmptyString =>
      res_writeHead 400 application_json;;
      res_end (Some (JSON.stringify [("error", JSON.Str "missing url param")]))
  | Some target =>
      t ← new_URL target None;
      client_request (select_client t) (make_options req t);;
      register set_on_error;;
      if String.eqb (Req.method req) "POST" then register set_on_body
      else upstream_end
  end.

(** The [catch (err)] block. *)
Definition proxySSE_catch (err : JS.Error) : M unit :=
  sent ← res_headersSent;
  when (negb sent) (res_writeHead 500 application_json);;
  res_end (Some (JSON.stringify
                   [("error", JSON.Str "proxy error");
                    ("message", JSON.Str (JS.or_else (Some (JS.message err)) "unknown"))])).

Definition proxySSE (req : Req.t) : M unit :=
  try_catch (proxySSE_body req) proxySSE_catch.

(** The session [proxySSE(req, res)] leaves behind when it returns. *)
Definition handle (req : Req.t) (r : Res.t) : Session :=
  snd (proxySSE req (start r)).

(** [health(_req, res)]; [now] stands for [new Date().toISOString()]. *)
Definition health (now : string) : M unit :=
  cors;;
  res_writeHead 200 application_json;;
  res_end (Some (JSON.stringify [("ok", JSON.Bool true); ("time", JSON.Str now)])).

(** The request listener given to [http.createServer]. *)
Definition server (now : string) (req : Req.t) : M unit :=
  if (String.eqb (Req.method req) "OPTIONS" || String.eqb (Req.method req) "HEAD")%bool then
    cors;; res_writeHead 200 [];; res_end None
  else if JS.startsWith (Req.url req) "/health" then health now
  else if JS.startsWith (Req.url req) "/sse" then proxySSE req
  else if JS.startsWith (Req.url req) "/config" then
    cors;; res_writeHead 200 application_json;;
    res_end (Some (JSON.stringify [("ok", JSON.Bool true)]))
  else
    cors;; res_writeHead 404 application_json;;
    res_end (Some (JSON.stringify [("error", JSON.Str "not found")])).

End Proxy.

(** ** Events *)

(** What the runtime can deliver to a session: body chunks and the end
    of the inbound request, the caller going away, the upstream response
    head, its body chunks, its end, a failure of the response stream, and
    a failure of the outbound request. *)
Inductive Event :=
| ReqData (c : string)
| ReqEnd
| ReqClose
| UpResponse (ur : Ur.t)
| UrData (chunk : string)
| UrEnd
| UrError
| UpError (e : JS.Error).

(** The listener the proxy has registered for an event, if any. Nothing
    listens for the caller going away. *)
Definition listener (s : Session) (ev : Event) : option (M unit) :=
  match ev with
  | ReqData c => if on_body s then Some (req_data c) else None
  | ReqEnd => if on_body s then Some req_end else None
  | ReqClose => None
  | UpResponse ur =>
      match upstream s with
      | Some _ => Some (upstream_response ur)
      | None => None
      end
  | UrData chunk => if on_ur s then Some (ur_data chunk) else None
  | UrEnd => if on_ur s then Some ur_end else None
  | UrError => if on_ur s then Some ur_error else None
  | UpError e => if on_error s then Some (upstream_error e) else None
  end.

(** Delivering one event. An exception that escapes a listener is not
    caught by anyone: the process stops and later events are lost. *)
Definition dispatch (s : Session) (ev : Event) : Session :=
  match uncaught s with
  | Some _ => s
  | None =>
      match listener s ev with
      | None => s
      | Some l =>
          match l s with
          | (JS.Normal _, s') => s'
          | (JS.Throw e, s') => set_uncaught e s'
          end
      end
  end.

Definition run (s : Session) (evs : list Event) : Session := foldl dispatch s evs.

(** ** A reference runtime

    An executable instance of [Platform], used to run the proxy on
    concrete requests. Its URL parser covers the hierarchical form
    [scheme://host[:port][/path][?query][#fragment]] with a host name in
    ASCII and, against a base, references that begin with a slash. Like
    the URL Standard it fails on an input without a scheme when there is
    no base, on a host with a forbidden character (a space, for one) and
    on a port above 65535. It is not the whole of the Standard: user
    information, bracketed addresses, [file:] URLs and the re-encoding
    of path and query are outside of what it covers. Its request check is
    the protocol check of [http.request] and [https.request]. *)

Module Reference.

Definition is_alpha (a : ascii) : bool :=
  let n := nat_of_ascii a in
  ((Nat.leb 65 n && Nat.leb n 90) || (Nat.leb 97 n && Nat.leb n 122))%bool.

Definition is_digit (a : ascii) : bool :=
  let n := nat_of_ascii a in (Nat.leb 48 n && Nat.leb n 57)%bool.

Definition is_scheme_char (a : ascii) : bool :=
  (is_alpha a || is_digit a || Ascii.eqb a "+" || Ascii.eqb a "-" || Ascii.eqb a ".")%bool.

(** The longest prefix of [s] with no character in [stop], and the rest. *)
Fixpoint break (stop : ascii → bool) (s : string) : string * string :=
  match s with
  | EmptyString => (EmptyString, EmptyString)
  | String a s' =>
      if stop a then (EmptyString, s)
      else let (l, r) := break stop s' in (String a l, r)
  end.

Fixpoint all_chars (p : ascii → bool) (s : string) : bool :=
  match s with
  | EmptyString => true
  | String a s' => (p a && all_chars p s')%bool
  end.

Definition hex_value (a : ascii) : option nat :=
  let n := nat_of_ascii a in
  if is_digit a then Some (n - 48)%nat
  else if (Nat.leb 65 n && Nat.leb n 70)%bool then Some (n - 55)%nat
  else if (Nat.leb 97 n && Nat.leb n 102)%bool then Some (n - 87)%nat
  else None.

(** Decoding of one name or value of a query string: [+] is a space and
    [%XY] is the byte with that hexadecimal code. *)
Fixpoint decode (s : string) : string :=
  match s with
  | EmptyString => EmptyString
  | String a s' =>
      if Ascii.eqb a "+" then String " " (decode s')
      else
        match s' with
        | String x (String y s'') =>
            match Ascii.eqb a "%", hex_value x, hex_value y with
            | true, Some h, Some l => String (ascii_of_nat (16 * h + l)) (decode s'')
            | _, _, _ => String a (decode s')
            end
        | _ => String a (decode s')
        end
  end.

Definition parse_pair (piece : string) : string * string :=
  let (name, rest) := break (Ascii.eqb "=") piece in
  (decode name, decode match rest with String _ v => v | EmptyString => EmptyString end).

(** The name-value pairs of a query string (without its question mark).
    [fuel] bounds the number of pieces. *)
Fixpoint parse_query (fuel : nat) (q : string) : list (string * string) :=
  match fuel with
  | O => []
  | S fuel' =>
      let (piece, rest) := break (Ascii.eqb "&") q in
      let here := match piece with EmptyString => [] | _ => [parse_pair piece] end in
      match rest with
      | String _ q' => here ++ parse_query fuel' q'
      | EmptyString => here
      end
  end.

(** The characters a host name must not contain: controls and the
    space, the delimiters of the URL syntax, the percent sign and DEL. *)
Definition is_forbidden_in_host (a : ascii) : bool :=
  let n := nat_of_ascii a in
  (Nat.leb n 32
   || existsb (Nat.eqb n) [34; 35; 37; 47; 58; 60; 62; 63; 64; 91; 92; 93; 94; 124; 127]%nat)%bool.

(** The number a string of decimal digits denotes. *)
Fixpoint number_of (acc : N) (digits : string) : N :=
  match digits with
  | EmptyString => acc
  | String a digits' => number_of (10 * acc + N.of_nat (nat_of_ascii a - 48)) digits'
  end.

(** A number in decimal, without leading zeros; [fuel] bounds the number
    of digits. *)
Fixpoint decimal (fuel : nat) (n : N) : string :=
  match fuel with
  | O => EmptyString
  | S fuel' =>
      let last := String (ascii_of_N (48 + n mod 10)) EmptyString in
      if (n <? 10)%N then last else decimal fuel' (n / 10) +:+ last
  end.

(** The port as the parsed URL reports it: empty when none is given or
    when it is the default of the scheme, in decimal otherwise; [None]
    when it is not a number or above 65535. *)
Definition parse_port (default digits : string) : option string :=
  match digits with
  | EmptyString => Some EmptyString
  | _ =>
      if all_chars is_digit digits then
        let n := number_of 0 digits in
        if (65535 <? n)%N then None
        else if String.eqb (decimal 5 n) default then Some EmptyString
        else Some (decimal 5 n)
      else None
  end.

Definition default_port (scheme : string) : string :=
  if String.eqb scheme "http" then "80"
  else if String.eqb scheme "https" then "443"
  else EmptyString.

Definition is_delim (a : ascii) : bool :=
  (Ascii.eqb a "/" || Ascii.eqb a "?" || Ascii.eqb a "#")%bool.

Definition is_query_or_fragment (a : ascii) : bool :=
  (Ascii.eqb a "?" || Ascii.eqb a "#")%bool.

(** Path and query of the part of a URL that follows the authority. *)
Definition path_and_query (s : string) : string * string :=
  let (path, rest) := break is_query_or_fragment s in
  let query :=
    match rest with
    | String "?" q => fst (break (Ascii.eqb "#") q)
    | _ => EmptyString
    end in
  (match path with EmptyString => "/" | _ => path end, query).

Definition search_of (query : string) : string :=
  match query with
  | EmptyString => EmptyString
  | _ => String "?" query
  end.

(** An absolute URL [scheme://host[:port]...]. *)
Definition parse_absolute (s : string) : option URL.t :=
  match s with
  | EmptyString => None
  | String a _ =>
      if negb (is_alpha a) then None
      else
        let (scheme, rest) := break (fun c => negb (is_scheme_char c)) s in
        match rest with
        | String ":" (String "/" (String "/" rest')) =>
            let scheme := JS.toLowerCase scheme in
            let (authority, tail) := break is_delim rest' in
            let (host, after_host) := break (Ascii.eqb ":") authority in
            let (path, query) := path_and_query tail in
            let port_ok :=
              match after_host with
              | EmptyString => Some EmptyString
              | String _ digits => parse_port (default_port scheme) digits
              end in
            match host, port_ok with
            | String _ _, Some port =>
                if all_chars (fun c => negb (is_forbidden_in_host c)) host then
                  Some (URL.mk (scheme +:+ ":") (JS.toLowerCase host) port path
                               (search_of query) (parse_query (String.length query) query))
                else None
            | _, _ => None
            end
        | _ => None
        end
  end.

Definition invalid_url : JS.Error := JS.mkError "Invalid URL".

(** [new URL(input)] and [new URL(input, base)]. *)
Definition parse_URL (input : string) (base : option string) : JS.Completion URL.t :=
  match base with
  | None =>
      match parse_absolute input with
      | Some u => JS.Normal u
      | None => JS.Throw invalid_url
      end
  | Some b =>
      match parse_absolute b with
      | None => JS.Throw invalid_url
      | Some pb =>
          match parse_absolute input with
          | Some u => JS.Normal u
          | None =>
              if (JS.startsWith input "/" && negb (JS.startsWith input "//"))%bool then
                let (path, query) := path_and_query input in
                JS.Normal (URL.mk (URL.protocol pb) (URL.hostname pb) (URL.port pb) path
                                  (search_of query) (parse_query (String.length query) query))
              else JS.Throw invalid_url
          end
      end
  end.

Definition protocol_of (c : Client) : string :=
  match c with
  | http => "http:"
  | https => "https:"
  end.

(** [http.request] accepts only [http:] and [https.request] only
    [https:]; any other protocol in the options is rejected
    synchronously (ERR_INVALID_PROTOCOL). *)
Definition check_protocol (c : Client) (o : Options.t) : option JS.Error :=
  if String.eqb (Options.protocol o) (protocol_of c) then None
  else Some (JS.mkError ("Protocol " +:+ JSON.quote (Options.protocol o)
                          +:+ " not supported. Expected " +:+ JSON.quote (protocol_of c))).

Definition platform : Platform :=
  {| URL_new := parse_URL; request_check := check_protocol |}.

End Reference.

(** ** Vocabulary of the properties *)

(** The response after [cors(res)] on a fresh [res]. *)
Definition cors_res : Res.t :=
  Res.put "Access-Control-Allow-Headers" "Content-Type, Authorization, Accept, Cache-Control"
    (Res.put "Access-Control-Allow-Methods" "GET,POST,OPTIONS,HEAD"
       (Res.put "Access-Control-Allow-Origin" "*" Res.fresh)).

(** A response that was ended with status [status] and the JSON text of
    [o] as its whole body, on top of the CORS headers. *)
Definition json_reply (status : Z) (o : JSON.object) : Res.t :=
  Res.mk true status (<["content-type" := "application/json"]> (Res.headers cors_res))
         [JSON.stringify o] true.

Definition missing_url_param : JSON.object :=
  [("error", JSON.Str "missing url param")].

Definition proxy_error (e : JS.Error) : JSON.object :=
  [("error", JSON.Str "proxy error");
   ("message", JSON.Str (JS.or_else (Some (JS.message e)) "unknown"))].

Definition bad_gateway (e : JS.Error) : JSON.object :=
  [("error", JSON.Str "bad gateway"); ("message", JSON.Str (JS.message e))].

(** The session [proxySSE] leaves behind once the outbound request to
    the parsed target [t] exists: the request is already ended unless the
    method is POST, in which case the body listeners are registered. *)
Definition relay_session (req : Req.t) (t : URL.t) : Session :=
  let up := Up.create (select_client t) (make_options req t) in
  if String.eqb (Req.method req) "POST"
  then mkSession cors_res (Some up) true true false None
  else mkSession cors_res (Some (Up.end_ up)) true false false None.

(** The five header names of the outbound request. *)
Definition outbound_names : gset string :=
  {[ "Accept"; "Content-Type"; "Cache-Control"; "Connection"; "User-Agent" ]}.

(** The chunks the caller posted, in order of arrival. *)
Fixpoint posted (evs : list Event) : list string :=
  match evs with
  | [] => []
  | ReqData c :: evs' => c :: posted evs'
  | _ :: evs' => posted evs'
  end.

(** Whether the inbound body has signalled completion. *)
Fixpoint completed (evs : list Event) : bool :=
  match evs with
  | [] => false
  | ReqEnd :: _ => true
  | _ :: evs' => completed evs'
  end.

Definition is_body_event (ev : Event) : bool :=
  match ev with
  | ReqData _ | ReqEnd => true
  | _ => false
  end.

(** The contract of the inbound stream: nothing of the body is
    delivered after its end. *)
Fixpoint inbound_ok (evs : list Event) : bool :=
  match evs with
  | [] => true
  | ReqEnd :: evs' => forallb (fun ev => negb (is_body_event ev)) evs'
  | _ :: evs' => inbound_ok evs'
  end.

(** The chunks the upstream sent as its response body, in order. *)
Fixpoint streamed (evs : list Event) : list string :=
  match evs with
  | [] => []
  | UrData c :: evs' => c :: streamed evs'
  | _ :: evs' => streamed evs'
  end.

(** Events of the caller's side. *)
Definition is_inbound (ev : Event) : bool :=
  match ev with
  | ReqData _ | ReqEnd | ReqClose => true
  | _ => false
  end.

(** Events of a response body being relayed without incident. *)
Definition is_relay (ev : Event) : bool :=
  match ev with
  | UrData _ => true
  | _ => is_inbound ev
  end.

(** A runtime whose URL parser reads the query of a reference that
    starts with a slash from the reference alone, whatever the base. *)
Definition query_from_reference (P : Platform) : Prop :=
  ∀ input b1 b2 u1 u2,
    JS.startsWith input "/" = true →
    URL_new input (Some b1) = JS.Normal u1 →
    URL_new input (Some b2) = JS.Normal u2 →
    URL.searchParams u1 = URL.searchParams u2.

(** The ways [proxySSE] can return, on a fresh response. *)
Inductive outcome `{Platform} (req : Req.t) : Session → Prop :=
| Failed (e : JS.Error) : outcome req (start (json_reply 500 (proxy_error e)))
| Missing : outcome req (start (json_reply 400 missing_url_param))
| Relaying (u t : URL.t) (target : string) :
    URL_new (Req.url req) (Some (base_of req)) = JS.Normal u →
    URL.get u "url" = Some target →
    target ≠ EmptyString →
    URL_new target None = JS.Normal t →
    request_check (select_client t) (make_options req t) = None →
    outcome req (relay_session req t).

(** The double quote, as a string. *)
Definition dq : string := String JSON.dquote EmptyString.

(** What holds of every session [proxySSE] starts, at any time: an
    outbound request has its ['error'] listener, and as long as the head
    is pending nothing was written, the response is open and the
    listeners of the upstream response are not yet registered. *)
Definition sound (s : Session) : Prop :=
  (is_Some (upstream s) → on_error s = true)
  ∧ (Res.headersSent (res s) = false →
     Res.body (res s) = [] ∧ Res.finished (res s) = false ∧ on_ur s = false).

Definition no_body_events (evs : list Event) : bool :=
  forallb (fun ev => negb (is_body_event ev)) evs.

(** The events still to come respect the contract of the inbound
    stream, given what the session has already seen of it: once the body
    listeners have ended the outbound request, no body event follows. *)
Definition calm (s : Session) (evs : list Event) : bool :=
  match upstream s with
  | Some up => if (on_body s && Up.ended up)%bool then no_body_events evs else inbound_ok evs
  | None => true
  end.

(** The content type announced to the caller for an upstream response. *)
Definition announced_type (ur : Ur.t) : string :=
  if JS.includes (JS.or_else (Ur.headers ur !! "content-type") EmptyString) "text/event-stream"
  then "text/event-stream"
  else JS.or_else (Ur.headers ur !! "content-type") "application/json".

(** The header table of a relayed response: the CORS headers and the
    head computed from the upstream response. *)
Definition relayed_headers (ur : Ur.t) : gmap string string :=
  Res.merge (snd (response_head ur)) (Res.headers cors_res).

Definition relayed_names : gset string :=
  {[ "content-type"; "cache-control"; "connection"; "access-control-allow-origin";
     "access-control-allow-methods"; "access-control-allow-headers" ]}.

(** Requests and upstream responses used in the examples. *)
Module Sample.

Definition host : gmap string string := {[ "host" := "localhost:6277" ]}.

Definition get_echo : Req.t :=
  Req.mk "GET" "/sse?url=http://127.0.0.1:9001/echo" host.

Definition get_echo_with_credentials : Req.t :=
  Req.mk "GET" "/sse?url=http://127.0.0.1:9001/echo"
         (<["authorization" := "Bearer secret"]> (<["cookie" := "sid=1"]>
            {[ "host" := "proxy.example:6277" ]})).

Definition post_echo : Req.t :=
  Req.mk "POST" "/sse?url=http://127.0.0.1:9001/echo"
         (<["content-type" := "text/plain"]> host).

Definition get_no_target : Req.t := Req.mk "GET" "/sse" host.

Definition get_no_target_bad_host : Req.t := Req.mk "GET" "/sse" {[ "host" := "a b" ]}.

Definition get_bad_target : Req.t := Req.mk "GET" "/sse?url=not-a-url" host.

Definition echo_url : URL.t :=
  URL.mk "http:" "127.0.0.1" "9001" "/echo" EmptyString [].

Definition event_stream : Ur.t :=
  Ur.mk (Some 200) {[ "content-type" := "text/event-stream; charset=utf-8" ]}.

Definition json_with_extras : Ur.t :=
  Ur.mk (Some 200)
        (<["x-request-id" := "42"]> {[ "content-type" := "application/json" ]}).

Definition hang_up : JS.Error := JS.mkError "socket hang up".

End Sample.

(** ** Vocabulary of the properties of the server *)

(** The session the request listener leaves behind on a fresh response;
    [now] is the time [health] would report. *)
Definition served `{Platform} (now : string) (req : Req.t) : Session :=
  snd (server now req (start Res.fresh)).

(** The three headers of [cors] are in a header table, with the values
    [cors] gives them. *)
Definition has_cors (table : gmap string string) : Prop :=
  table !! "access-control-allow-origin" = Some "*"
  ∧ table !! "access-control-allow-methods" = Some "GET,POST,OPTIONS,HEAD"
  ∧ table !! "access-control-allow-headers"
    = Some "Content-Type, Authorization, Accept, Cache-Control".

(** A header table after [cors] has stored its three headers in it. *)
Definition with_cors (table : gmap string string) : gmap string string :=
  <["access-control-allow-headers" := "Content-Type, Authorization, Accept, Cache-Control"]>
    (<["access-control-allow-methods" := "GET,POST,OPTIONS,HEAD"]>
       (<["access-control-allow-origin" := "*"]> table)).

(** The names under which [cors] stores its headers. *)
Definition cors_names : gset string :=
  {[ "access-control-allow-origin"; "access-control-allow-methods";
     "access-control-allow-headers" ]}.

(** The events that remain when the chunks and the end of the inbound
    body are left out; everything else, the caller going away included,
    stays in its place. *)
Fixpoint without_body (evs : list Event) : list Event :=
  match evs with
  | [] => []
  | ev :: evs' => if is_body_event ev then without_body evs' else ev :: without_body evs'
  end.

(** Two sessions that agree on everything the listeners of the
    upstream's side look at: the response, which of them are registered,
    whether an outbound request exists, and whether the process is
    alive. *)
Definition same_response_side (s1 s2 : Session) : Prop :=
  res s1 = res s2
  ∧ on_ur s1 = on_ur s2
  ∧ on_error s1 = on_error s2
  ∧ uncaught s1 = uncaught s2
  ∧ (is_Some (upstream s1) ↔ is_Some (upstream s2)).

(** Further requests used in the examples. *)
Module Route.

Definition preflight : Req.t :=
  Req.mk "OPTIONS" "/sse?url=http://127.0.0.1:9001/echo" Sample.host.

Definition post_health : Req.t := Req.mk "POST" "/healthz?url=http://127.0.0.1:9001/echo" Sample.host.

Definition get_config : Req.t := Req.mk "GET" "/config/ui" Sample.host.

Definition get_root : Req.t := Req.mk "GET" "/" Sample.host.

Definition sse_suffix : Req.t := Req.mk "PUT" "/ssefoo/bar?target=x" Sample.host.

Definition get_ftp : Req.t := Req.mk "GET" "/sse?url=ftp://files.example/pub" Sample.host.

Definition get_secure : Req.t :=
  Req.mk "DELETE" "/sse?url=https://api.example/v1/events?since=7" Sample.host.

Definition secure_url : URL.t :=
  URL.mk "https:" "api.example" EmptyString "/v1/events" "?since=7" [("since", "7")].

End Route.

(** ** Proof automation *)

Arguments Res.merge : simpl never.

(** Unfolds every listener and every operation on the session down to
    the records. *)
Ltac unfold_listeners :=
  unfold dispatch, listener, req_data, req_end, upstream_write, upstream_end,
    upstream_response, ur_data, ur_end, ur_error, upstream_error, when, try_catch, throw,
    res_writeHead, res_write, res_end, res_headersSent, on_res, register,
    mbind, M_bind, mret, M_ret, Res.writeHead, Res.write, Res.end_,
    set_res, set_upstream, set_on_error, set_on_body, set_on_ur, set_uncaught in *.

(** Opens a session into its fields, so that every test a listener
    makes is a test on a variable. *)
Ltac open_session s :=
  let hs := fresh "hs" in let sc := fresh "sc" in let hd := fresh "hd" in
  let bd := fresh "bd" in let fin := fresh "fin" in
  let oe := fresh "oe" in let ob := fresh "ob" in let ou := fresh "ou" in
  destruct s as [[hs sc hd bd fin] [[? ? ? ? ?]|] oe ob ou [?|]]; simpl in *.

(** Case analysis on the variable that decides a branch of the goal. *)
Ltac split_branch :=
  match goal with
  | |- context [if ?x then _ else _] => is_var x; destruct x
  | |- context [negb ?x] => is_var x; destruct x
  | |- context [(?x && _)%bool] => is_var x; destruct x
  end.

Ltac by_cases := simpl in *; repeat (split_branch; simpl in * ); try done.

(** ** What [proxySSE] does before it returns *)

Lemma cors_fresh : cors (start Res.fresh) = (JS.Normal tt, start cors_res).
Proof. reflexivity. Qed.

Section Outcomes.
Context `{P : Platform}.

Local Ltac enter_handle :=
  unfold handle, proxySSE, try_catch, proxySSE_body, mbind, M_bind;
  rewrite cors_fresh; unfold new_URL.

(** Whatever is thrown before the head is written ends in the [catch]
    block's 500. *)
Lemma catch_after_cors (e : JS.Error) :
  proxySSE_catch e (start cors_res) = (JS.Normal tt, start (json_reply 500 (proxy_error e))).
Proof. reflexivity. Qed.

Lemma handle_unparsed_request req e :
  URL_new (Req.url req) (Some (base_of req)) = JS.Throw e →
  handle req Res.fresh = start (json_reply 500 (proxy_error e)).
Proof. intros Hu. enter_handle. rewrite Hu. reflexivity. Qed.

Lemma handle_missing req u :
  URL_new (Req.url req) (Some (base_of req)) = JS.Normal u →
  URL.get u "url" = None ∨ URL.get u "url" = Some EmptyString →
  handle req Res.fresh = start (json_reply 400 missing_url_param).
Proof.
  intros Hu Hg. enter_handle. rewrite Hu.
  destruct Hg as [-> | ->]; reflexivity.
Qed.

Lemma handle_unparsed_target req u target e :
  URL_new (Req.url req) (Some (base_of req)) = JS.Normal u →
  URL.get u "url" = Some target →
  target ≠ EmptyString →
  URL_new target None = JS.Throw e →
  handle req Res.fresh = start (json_reply 500 (proxy_error e)).
Proof.
  intros Hu Hg Hne Ht. enter_handle. rewrite Hu, Hg.
  destruct target as [|a target']; [done|].
  rewrite Ht. reflexivity.
Qed.

Lemma handle_rejected req u target t e :
  URL_new (Req.url req) (Some (base_of req)) = JS.Normal u →
  URL.get u "url" = Some target →
  target ≠ EmptyString →
  URL_new target None = JS.Normal t →
  request_check (select_client t) (make_options req t) = Some e →
  handle req Res.fresh = start (json_reply 500 (proxy_error e)).
Proof.
  intros Hu Hg Hne Ht Hc. enter_handle. rewrite Hu, Hg.
  destruct target as [|a target']; [done|].
  rewrite Ht. unfold client_request. rewrite Hc. reflexivity.
Qed.

Lemma handle_relay req u target t :
  URL_new (Req.url req) (Some (base_of req)) = JS.Normal u →
  URL.get u "url" = Some target →
  target ≠ EmptyString →
  URL_new target None = JS.Normal t →
  request_check (select_client t) (make_options req t) = None →
  handle req Res.fresh = relay_session req t.
Proof.
  intros Hu Hg Hne Ht Hc. enter_handle. rewrite Hu, Hg.
  destruct target as [|a target']; [done|].
  rewrite Ht. unfold client_request, relay_session. rewrite Hc.
  destruct (String.eqb (Req.method req) "POST"); reflexivity.
Qed.

Lemma handle_outcome req : outcome req (handle req Res.fresh).
Proof.
  destruct (URL_new (Req.url req) (Some (base_of req))) as [u|e] eqn:Hu.
  2:{ rewrite (handle_unparsed_request _ _ Hu). constructor. }
  destruct (URL.get u "url") as [target|] eqn:Hg.
  2:{ rewrite (handle_missing _ _ Hu); [constructor | by left]. }
  destruct (decide (target = EmptyString)) as [->|Hne].
  { rewrite (handle_missing _ _ Hu); [constructor | by right]. }
  destruct (URL_new target None) as [t|e] eqn:Ht.
  2:{ rewrite (handle_unparsed_target _ _ _ _ Hu Hg Hne Ht). constructor. }
  destruct (request_check (select_client t) (make_options req t)) as [e|] eqn:Hc.
  { rewrite (handle_rejected _ _ _ _ _ Hu Hg Hne Ht Hc). constructor. }
  rewrite (handle_relay _ _ _ _ Hu Hg Hne Ht Hc). by econstructor.
Qed.

(** An outbound request exists after [proxySSE] only in the relaying
    outcome. *)
Lemma handle_upstream req up :
  upstream (handle req Res.fresh) = Some up →
  ∃ t, handle req Res.fresh = relay_session req t.
Proof.
  intros Hup. destruct (handle_outcome req) as [e| |u t target]; try discriminate.
  by exists t.
Qed.

End Outcomes.

(** ** How events move a session *)

Lemma dispatch_dead s ev e : uncaught s = Some e → dispatch s ev = s.
Proof. intros Hu. unfold dispatch. by rewrite Hu. Qed.

Lemma run_dead evs s e : uncaught s = Some e → run s evs = s.
Proof.
  induction evs as [|ev evs IH]; intros Hu; [done|].
  unfold run in *. simpl. rewrite (dispatch_dead _ _ _ Hu). by apply IH.
Qed.

Lemma run_cons s ev evs : run s (ev :: evs) = run (dispatch s ev) evs.
Proof. reflexivity. Qed.

Lemma run_app s evs1 evs2 : run s (evs1 ++ evs2) = run (run s evs1) evs2.
Proof. unfold run. apply foldl_app. Qed.

(** A session that is alive at the end was alive all along. *)
Lemma alive_before s evs : uncaught (run s evs) = None → uncaught s = None.
Proof.
  destruct (uncaught s) as [e|] eqn:Hu; [|done].
  by rewrite (run_dead _ _ _ Hu), Hu.
Qed.

Lemma alive_after_first s ev evs :
  uncaught (run s (ev :: evs)) = None → uncaught (dispatch s ev) = None.
Proof. rewrite run_cons. apply alive_before. Qed.

(** A session without outbound request and without listeners ignores
    every event. *)
Lemma dispatch_inert r ev : dispatch (start r) ev = start r.
Proof. by destruct ev. Qed.

Lemma run_inert r evs : run (start r) evs = start r.
Proof.
  induction evs as [|ev evs IH]; [done|].
  by rewrite run_cons, dispatch_inert.
Qed.

(** No listener replaces, reconfigures or destroys the outbound request. *)
Lemma dispatch_upstream s ev up :
  upstream s = Some up →
  ∃ up', upstream (dispatch s ev) = Some up'
         ∧ Up.client up' = Up.client up
         ∧ Up.options up' = Up.options up
         ∧ Up.destroyed up' = Up.destroyed up.
Proof.
  intros Hup. open_session s; simplify_eq.
  all: destruct ev; unfold_listeners; by_cases; eauto.
Qed.

Lemma run_upstream evs s up :
  upstream s = Some up →
  ∃ up', upstream (run s evs) = Some up'
         ∧ Up.client up' = Up.client up
         ∧ Up.options up' = Up.options up
         ∧ Up.destroyed up' = Up.destroyed up.
Proof.
  revert s up. induction evs as [|ev evs IH]; intros s up Hup; [by eauto|].
  destruct (dispatch_upstream s ev up Hup) as (up1 & H1 & Hc & Ho & Hd).
  destruct (IH _ _ H1) as (up2 & H2 & Hc2 & Ho2 & Hd2).
  exists up2. rewrite run_cons. repeat split; congruence.
Qed.

(** On a dead session nothing moves, so calm sessions stay calm. *)
Lemma no_body_inbound_ok evs : no_body_events evs = true → inbound_ok evs = true.
Proof.
  induction evs as [|ev evs IH]; [done|].
  unfold no_body_events in *. simpl. intros [Hev Hevs]%andb_prop.
  destruct ev; simpl in *; try done; by apply IH.
Qed.

Lemma inbound_ok_tail ev evs : inbound_ok (ev :: evs) = true → inbound_ok evs = true.
Proof. destruct ev; simpl; try done. apply no_body_inbound_ok. Qed.

Lemma no_body_tail ev evs : no_body_events (ev :: evs) = true → no_body_events evs = true.
Proof. unfold no_body_events. simpl. by intros [_ ?]%andb_prop. Qed.

Lemma calm_step s ev evs : calm s (ev :: evs) = true → calm (dispatch s ev) evs = true.
Proof.
  unfold calm. open_session s; try done.
  all: destruct ev; unfold_listeners; simpl; by_cases;
    eauto using inbound_ok_tail, no_body_tail, no_body_inbound_ok.
Qed.

Lemma calm_run evs1 s evs2 : calm s (evs1 ++ evs2) = true → calm (run s evs1) evs2 = true.
Proof.
  revert s. induction evs1 as [|ev evs1 IH]; intros s Hc; [done|].
  rewrite run_cons. apply IH. by apply calm_step.
Qed.

(** Events other than those of the inbound body leave the outbound
    request and the body listeners alone. *)
Lemma dispatch_other s ev :
  is_body_event ev = false →
  upstream (dispatch s ev) = upstream s ∧ on_body (dispatch s ev) = on_body s.
Proof.
  intros Hev. open_session s.
  all: destruct ev; try done; unfold_listeners; by_cases.
Qed.

(** The body listeners are registered by [proxySSE] or never. *)
Lemma dispatch_on_body s ev : on_body (dispatch s ev) = on_body s.
Proof. open_session s; destruct ev; unfold_listeners; by_cases. Qed.

(** [sound] is an invariant of every session [proxySSE] starts. *)
Lemma dispatch_sound s ev : sound s → sound (dispatch s ev).
Proof.
  unfold sound. intros [Herr Hhead]. open_session s.
  all: try (specialize (Herr (ltac:(eauto))); subst).
  all: destruct hs; [clear Hhead | destruct Hhead as (-> & -> & ->); [done|]].
  all: destruct ev; unfold_listeners; by_cases; split; try done; by intros [? ?].
Qed.

Lemma run_sound evs s : sound s → sound (run s evs).
Proof.
  revert s. induction evs as [|ev evs IH]; intros s Hs; [done|].
  rewrite run_cons. by apply IH, dispatch_sound.
Qed.

Lemma handle_sound `{P : Platform} req : sound (handle req Res.fresh).
Proof.
  destruct (handle_outcome req) as [e| |u t target]; unfold sound; simpl.
  - split; [by intros [? ?] | done].
  - split; [by intros [? ?] | done].
  - unfold relay_session. by destruct (String.eqb (Req.method req) "POST").
Qed.

Lemma reachable_sound `{P : Platform} req evs : sound (run (handle req Res.fresh) evs).
Proof. apply run_sound, handle_sound. Qed.

(** ** The request body *)

(** While the session is calm and alive, the outbound request collects
    exactly the posted chunks and is ended by the end of the inbound
    body. *)
Lemma forwarding evs s up :
  upstream s = Some up →
  on_body s = true →
  calm s evs = true →
  uncaught (run s evs) = None →
  ∃ up', upstream (run s evs) = Some up'
         ∧ Up.written up' = Up.written up ++ posted evs
         ∧ Up.ended up' = (Up.ended up || completed evs)%bool.
Proof.
  revert s up. induction evs as [|ev evs IH]; intros s up Hup Hob Hcalm Halive.
  { exists up. by rewrite app_nil_r, orb_false_r. }
  pose proof (calm_step _ _ _ Hcalm) as Hcalm'.
  pose proof (alive_after_first _ _ _ Halive) as Halive1.
  pose proof (alive_before _ _ Halive) as Halive0.
  rewrite run_cons in *.
  assert (on_body (dispatch s ev) = true) as Hob' by by rewrite dispatch_on_body.
  destruct (is_body_event ev) eqn:Hev.
  - destruct ev; try done.
    + (* a chunk arrives *)
      assert (Up.ended up = false) as Hen.
      { unfold calm in Hcalm. rewrite Hup, Hob in Hcalm.
        by destruct (Up.ended up). }
      assert (upstream (dispatch s (ReqData c)) = Some (Up.write c up)) as Hup'.
      { clear -Hup Hob Hen Halive0. open_session s; simplify_eq.
        unfold_listeners. by_cases. }
      destruct (IH _ _ Hup' Hob' Hcalm' Halive) as (up' & -> & Hw & He).
      exists up'. split; [done|]. rewrite Hw, He. simpl.
      by rewrite <- app_assoc, Hen.
    + (* the inbound body ends *)
      assert (upstream (dispatch s ReqEnd) = Some (Up.end_ up)) as Hup'.
      { clear -Hup Hob Halive0. open_session s; simplify_eq.
        unfold_listeners. by_cases. }
      destruct (IH _ _ Hup' Hob' Hcalm' Halive) as (up' & -> & Hw & He).
      exists up'. split; [done|]. rewrite Hw, He. simpl.
      split; [done | by rewrite orb_true_r].
  - destruct (dispatch_other s ev Hev) as [Hsame _].
    rewrite Hup in Hsame.
    destruct (IH _ _ Hsame Hob' Hcalm' Halive) as (up' & -> & Hw & He).
    exists up'. split; [done|]. rewrite Hw, He.
    by destruct ev.
Qed.

(** Without body listeners the outbound request stays as it is. *)
Lemma deaf_to_body evs s up :
  upstream s = Some up →
  on_body s = false →
  ∃ up', upstream (run s evs) = Some up'
         ∧ Up.written up' = Up.written up
         ∧ Up.ended up' = Up.ended up.
Proof.
  revert s up. induction evs as [|ev evs IH]; intros s up Hup Hob; [by eauto|].
  rewrite run_cons.
  assert (upstream (dispatch s ev) = Some up) as Hup'.
  { clear -Hup Hob. open_session s; simplify_eq.
    all: destruct ev; unfold_listeners; by_cases. }
  apply IH; [done|]. by rewrite dispatch_on_body.
Qed.

(** ** The response *)

Lemma merge_head table ur :
  Res.merge (snd (response_head ur)) table
  = <["access-control-allow-origin" := "*"]>
      (<["connection" := "keep-alive"]>
         (<["cache-control" := "no-cache"]>
            (<["content-type" := announced_type ur]> table))).
Proof. reflexivity. Qed.

Lemma head_content_type table ur :
  Res.merge (snd (response_head ur)) table !! "content-type" = Some (announced_type ur).
Proof. rewrite merge_head. by simplify_map_eq. Qed.

Lemma head_fixed table ur :
  Res.merge (snd (response_head ur)) table !! "cache-control" = Some "no-cache"
  ∧ Res.merge (snd (response_head ur)) table !! "connection" = Some "keep-alive"
  ∧ Res.merge (snd (response_head ur)) table !! "access-control-allow-origin" = Some "*".
Proof. rewrite merge_head. by simplify_map_eq. Qed.

Lemma relayed_headers_dom ur : dom (relayed_headers ur) = relayed_names.
Proof.
  unfold relayed_headers. rewrite merge_head.
  unfold cors_res, Res.put, relayed_names. simpl.
  rewrite !dom_insert_L, dom_empty_L. set_solver.
Qed.

Lemma relayed_headers_other ur name :
  name ∉ relayed_names → relayed_headers ur !! name = None.
Proof. rewrite <- (relayed_headers_dom ur). apply not_elem_of_dom. Qed.

(** The upstream response arrives while the head is pending. *)
Lemma response_arrives s ur :
  is_Some (upstream s) →
  uncaught s = None →
  Res.headersSent (res s) = false →
  dispatch s (UpResponse ur)
  = mkSession (Res.mk true (JS.or_elseZ (Ur.statusCode ur) 200)
                      (Res.merge (snd (response_head ur)) (Res.headers (res s)))
                      (Res.body (res s)) (Res.finished (res s)))
              (upstream s) (on_error s) (on_body s) true None.
Proof.
  intros [up Hup] Halive Hhead. open_session s; simplify_eq.
  unfold_listeners. by_cases.
Qed.

(** Events of the caller's side do not touch the response of a calm
    session. *)
Lemma inbound_keeps_res s ev evs :
  is_inbound ev = true →
  calm s (ev :: evs) = true →
  res (dispatch s ev) = res s
  ∧ on_ur (dispatch s ev) = on_ur s
  ∧ uncaught (dispatch s ev) = uncaught s.
Proof.
  intros Hev. unfold calm. open_session s.
  all: destruct ev; try done; unfold_listeners; by_cases.
Qed.

Lemma quiet_stage evs s rest :
  forallb is_inbound evs = true →
  calm s (evs ++ rest) = true →
  res (run s evs) = res s
  ∧ on_ur (run s evs) = on_ur s
  ∧ uncaught (run s evs) = uncaught s.
Proof.
  revert s. induction evs as [|ev evs IH]; intros s Hin Hcalm; [done|].
  simpl in Hin. apply andb_prop in Hin as [Hev Hevs].
  destruct (inbound_keeps_res s ev (evs ++ rest) Hev Hcalm) as (Hr & Hu & Ha).
  destruct (IH (dispatch s ev) Hevs (calm_step _ _ _ Hcalm)) as (Hr' & Hu' & Ha').
  rewrite run_cons. repeat split; congruence.
Qed.

(** With the head committed and the response open, each chunk of the
    upstream body is appended to the caller's body. *)
Lemma relay_stage evs s rest :
  forallb is_relay evs = true →
  calm s (evs ++ rest) = true →
  uncaught s = None →
  on_ur s = true →
  Res.headersSent (res s) = true →
  Res.finished (res s) = false →
  res (run s evs)
  = Res.mk true (Res.statusCode (res s)) (Res.headers (res s))
           (Res.body (res s) ++ streamed evs) false
  ∧ on_ur (run s evs) = true
  ∧ uncaught (run s evs) = None.
Proof.
  revert s. induction evs as [|ev evs IH]; intros s Hrel Hcalm Halive Hur Hhead Hfin.
  { simpl. rewrite app_nil_r. by destruct s as [[] ? ? ? ? ?]; simpl in *; subst. }
  simpl in Hrel. apply andb_prop in Hrel as [Hev Hevs].
  pose proof (calm_step _ _ _ Hcalm) as Hcalm'.
  rewrite run_cons.
  destruct (is_inbound ev) eqn:Hin.
  - destruct (inbound_keeps_res s ev (evs ++ rest) Hin Hcalm) as (Hr & Hu & Ha).
    destruct (IH (dispatch s ev) Hevs Hcalm') as (Hr' & Hu' & Ha'); try congruence.
    rewrite Hr', Hr. split; [|done].
    clear -Hin. by destruct ev; simpl in *.
  - destruct ev; try done. clear Hev Hin.
    assert (dispatch s (UrData chunk)
            = set_res (Res.mk true (Res.statusCode (res s)) (Res.headers (res s))
                              (Res.body (res s) ++ [chunk]) false) s) as Hstep.
    { clear -Halive Hur Hfin. open_session s; simplify_eq.
      all: unfold_listeners; by_cases. }
    destruct (IH (dispatch s (UrData chunk)) Hevs Hcalm') as (Hr' & Hu' & Ha');
      try (by rewrite Hstep).
    rewrite Hstep in *. rewrite Hr'. simpl. by rewrite <- app_assoc.
Qed.

(** ** Routing *)

(** The requests the server hands to [proxySSE] are those whose method
    is neither OPTIONS nor HEAD and whose request target begins with
    [/sse]; for them the server is [proxySSE]. *)
Lemma server_delegates `{P : Platform} (now : string) (req : Req.t) :
  Req.method req ≠ "OPTIONS" →
  Req.method req ≠ "HEAD" →
  JS.startsWith (Req.url req) "/sse" = true →
  server now req = proxySSE req.
Proof.
  intros Ho Hh Hsse. unfold server.
  apply String.eqb_neq in Ho, Hh. rewrite Ho, Hh. simpl.
  assert (JS.startsWith (Req.url req) "/health" = false) as ->.
  { destruct (Req.url req) as [|a [|b rest]]; simpl in *; try done.
    - by destruct (Ascii.eqb a "/").
    - destruct (Ascii.eqb a "/"); [|done].
      destruct (Ascii.eqb_spec b "s") as [->|]; done. }
  by rewrite Hsse.
Qed.

Lemma sse_target_is_rooted (target : string) :
  JS.startsWith target "/sse" = true → JS.startsWith target "/" = true.
Proof.
  destruct target as [|a rest]; [done|].
  cbn [JS.startsWith]. destruct (Ascii.eqb a "/"); [|done].
  by destruct rest.
Qed.

(** * The claims *)

(** ** Target resolution *)

(** As C6 states it, every request without a [url] parameter would be
    answered with 400. On the reference runtime the request [GET /sse]
    with the header [Host: a b] has no query at all, but the parse of
    its URL against the base [http://a b] throws before the parameter is
    looked at, and the answer is the 500 of the [catch] block. *)
Lemma missing_target_with_bad_host_is_not_400 :
  let req := Sample.get_no_target_bad_host in
  JS.includes (Req.url req) "?" = false
  ∧ base_of req = "http://a b"
  ∧ Reference.parse_URL (Req.url req) (Some (base_of req)) = JS.Throw Reference.invalid_url
  ∧ Res.statusCode (res (@handle Reference.platform req Res.fresh)) = 500
  ∧ Res.body (res (@handle Reference.platform req Res.fresh))
    = [JSON.stringify [("error", JSON.Str "proxy error"); ("message", JSON.Str "Invalid URL")]]
  ∧ Res.statusCode (res (@handle Reference.platform req Res.fresh)) ≠ 400.
Proof. repeat split. vm_compute. discriminate. Qed.

(** C6, amended. When the URL of the request parses against the base
    built from its [Host] header and the [url] query parameter is absent
    or empty, [proxySSE] answers 400 with the body
    [{"error":"missing url param"}], ends the response, and creates no
    outbound request, neither then nor on any later event. *)
Theorem missing_target_answers_400 `{P : Platform} (req : Req.t) (u : URL.t) :
  URL_new (Req.url req) (Some (base_of req)) = JS.Normal u →
  URL.get u "url" = None ∨ URL.get u "url" = Some EmptyString →
  let s := handle req Res.fresh in
  Res.statusCode (res s) = 400
  ∧ Res.body (res s) = [JSON.stringify [("error", JSON.Str "missing url param")]]
  ∧ JSON.stringify [("error", JSON.Str "missing url param")]
    = "{" +:+ dq +:+ "error" +:+ dq +:+ ":" +:+ dq +:+ "missing url param" +:+ dq +:+ "}"
  ∧ Res.headers (res s) !! "content-type" = Some "application/json"
  ∧ Res.finished (res s) = true
  ∧ upstream s = None
  ∧ ∀ evs, upstream (run s evs) = None.
Proof.
  intros Hu Hg s. subst s. rewrite (handle_missing req u Hu Hg).
  repeat split; try done. intros evs. by rewrite run_inert.
Qed.

Lemma missing_target_answers_400_witness :
  let s := @handle Reference.platform Sample.get_no_target Res.fresh in
  Res.statusCode (res s) = 400
  ∧ Res.body (res s) = [JSON.stringify [("error", JSON.Str "missing url param")]]
  ∧ JSON.stringify [("error", JSON.Str "missing url param")]
    = "{" +:+ dq +:+ "error" +:+ dq +:+ ":" +:+ dq +:+ "missing url param" +:+ dq +:+ "}"
  ∧ Res.headers (res s) !! "content-type" = Some "application/json"
  ∧ Res.finished (res s) = true
  ∧ upstream s = None
  ∧ ∀ evs, upstream (run s evs) = None.
Proof.
  apply (@missing_target_answers_400 Reference.platform Sample.get_no_target
           (URL.mk "http:" "localhost" "6277" "/sse" EmptyString [])).
  - reflexivity.
  - left. reflexivity.
Defined.

(** As C2 states it, a target that does not parse would be answered
    with 400. On the reference runtime the request
    [GET /sse?url=not-a-url] has a non-empty [url] parameter which
    [new URL] rejects, and the answer is 500. *)
Lemma malformed_target_is_not_400 :
  let req := Sample.get_bad_target in
  Reference.parse_URL (Req.url req) (Some (base_of req))
    = JS.Normal (URL.mk "http:" "localhost" "6277" "/sse" "?url=not-a-url"
                        [("url", "not-a-url")])
  ∧ Reference.parse_URL "not-a-url" None = JS.Throw Reference.invalid_url
  ∧ Res.statusCode (res (@handle Reference.platform req Res.fresh)) = 500
  ∧ Res.statusCode (res (@handle Reference.platform req Res.fresh)) ≠ 400.
Proof. repeat split. vm_compute. discriminate. Qed.

(** C2, amended. When the [url] query parameter is present and not
    empty but [new URL] rejects it, the exception reaches the [catch]
    block: [proxySSE] answers 500 with the body
    [{"error":"proxy error","message":...}] carrying the parser's
    message, ends the response, and creates no outbound request, neither
    then nor on any later event. *)
Theorem malformed_target_answers_500 `{P : Platform} (req : Req.t) (u : URL.t)
    (target : string) (e : JS.Error) :
  URL_new (Req.url req) (Some (base_of req)) = JS.Normal u →
  URL.get u "url" = Some target →
  target ≠ EmptyString →
  URL_new target None = JS.Throw e →
  let s := handle req Res.fresh in
  Res.statusCode (res s) = 500
  ∧ Res.body (res s)
    = [JSON.stringify [("error", JSON.Str "proxy error");
                       ("message", JSON.Str (JS.or_else (Some (JS.message e)) "unknown"))]]
  ∧ Res.headers (res s) !! "content-type" = Some "application/json"
  ∧ Res.finished (res s) = true
  ∧ upstream s = None
  ∧ ∀ evs, upstream (run s evs) = None.
Proof.
  intros Hu Hg Hne Ht s. subst s.
  rewrite (handle_unparsed_target req u target e Hu Hg Hne Ht).
  repeat split; try done. intros evs. by rewrite run_inert.
Qed.

Lemma malformed_target_answers_500_witness :
  let s := @handle Reference.platform Sample.get_bad_target Res.fresh in
  Res.statusCode (res s) = 500
  ∧ Res.body (res s)
    = [JSON.stringify [("error", JSON.Str "proxy error");
                       ("message", JSON.Str (JS.or_else (Some "Invalid URL") "unknown"))]]
  ∧ Res.headers (res s) !! "content-type" = Some "application/json"
  ∧ Res.finished (res s) = true
  ∧ upstream s = None
  ∧ ∀ evs, upstream (run s evs) = None.
Proof.
  apply (@malformed_target_answers_500 Reference.platform Sample.get_bad_target
           (URL.mk "http:" "localhost" "6277" "/sse" "?url=not-a-url" [("url", "not-a-url")])
           "not-a-url" Reference.invalid_url).
  - reflexivity.
  - reflexivity.
  - discriminate.
  - reflexivity.
Defined.

(** ** The outbound request *)

Lemma make_options_headers req t :
  Options.headers (make_options req t)
  = {[ "Accept" := JS.or_else (Req.headers req !! "accept") "text/event-stream";
       "Content-Type" := JS.or_else (Req.headers req !! "content-type") "application/json";
       "Cache-Control" := "no-cache";
       "Connection" := "keep-alive";
       "User-Agent" := "mcp-inspector-local-proxy" ]}.
Proof. reflexivity. Qed.

Lemma make_options_names req t :
  dom (Options.headers (make_options req t)) = outbound_names.
Proof.
  rewrite make_options_headers, !dom_insert_L, dom_singleton_L.
  unfold outbound_names. set_solver.
Qed.

Lemma or_else_supplied (v d : string) : v ≠ EmptyString → JS.or_else (Some v) d = v.
Proof. by destruct v. Qed.

Lemma or_else_default (x : option string) (d : string) :
  x = None ∨ x = Some EmptyString → JS.or_else x d = d.
Proof. by intros [-> | ->]. Qed.

Lemma relay_session_upstream req t :
  ∃ up, upstream (relay_session req t) = Some up
        ∧ Up.options up = make_options req t
        ∧ Up.client up = select_client t.
Proof.
  unfold relay_session. destruct (String.eqb (Req.method req) "POST"); simpl; eauto.
Qed.

(** C4. For a request whose target parses and whose outbound request
    the runtime accepts, the outbound request exists and, at any later
    time, its headers are exactly [Accept], [Content-Type],
    [Cache-Control], [Connection] and [User-Agent]: [Accept] and
    [Content-Type] carry the inbound value when one is supplied, and
    [text/event-stream] and [application/json] when it is missing or
    empty; the other three carry fixed values. No other name is present,
    whatever the inbound headers are. *)
Theorem outbound_headers_are_the_allow_list `{P : Platform} (req : Req.t) (u t : URL.t)
    (target : string) (evs : list Event) :
  URL_new (Req.url req) (Some (base_of req)) = JS.Normal u →
  URL.get u "url" = Some target →
  target ≠ EmptyString →
  URL_new target None = JS.Normal t →
  request_check (select_client t) (make_options req t) = None →
  ∃ up, upstream (run (handle req Res.fresh) evs) = Some up
    ∧ let hs := Options.headers (Up.options up) in
      dom hs = ({[ "Accept"; "Content-Type"; "Cache-Control"; "Connection"; "User-Agent" ]}
                : gset string)
      ∧ (∀ name, name ∉ outbound_names → hs !! name = None)
      ∧ (∀ v, Req.headers req !! "accept" = Some v → v ≠ EmptyString → hs !! "Accept" = Some v)
      ∧ (Req.headers req !! "accept" = None ∨ Req.headers req !! "accept" = Some EmptyString →
         hs !! "Accept" = Some "text/event-stream")
      ∧ (∀ v, Req.headers req !! "content-type" = Some v → v ≠ EmptyString →
           hs !! "Content-Type" = Some v)
      ∧ (Req.headers req !! "content-type" = None
         ∨ Req.headers req !! "content-type" = Some EmptyString →
         hs !! "Content-Type" = Some "application/json")
      ∧ hs !! "Cache-Control" = Some "no-cache"
      ∧ hs !! "Connection" = Some "keep-alive"
      ∧ hs !! "User-Agent" = Some "mcp-inspector-local-proxy".
Proof.
  intros Hu Hg Hne Ht Hc.
  rewrite (handle_relay req u target t Hu Hg Hne Ht Hc).
  destruct (relay_session_upstream req t) as (up0 & Hup0 & Ho & _).
  destruct (run_upstream evs _ _ Hup0) as (up & Hup & _ & Ho' & _).
  exists up. split; [done|]. simpl. rewrite Ho', Ho.
  split; [apply make_options_names|].
  split.
  { intros name Hname. apply not_elem_of_dom. by rewrite make_options_names. }
  rewrite make_options_headers.
  repeat split.
  - intros v Hv Hnv. rewrite Hv, (or_else_supplied _ _ Hnv). by simplify_map_eq.
  - intros Hv. rewrite (or_else_default _ _ Hv). by simplify_map_eq.
  - intros v Hv Hnv. rewrite Hv, (or_else_supplied _ _ Hnv). by simplify_map_eq.
  - intros Hv. rewrite (or_else_default _ _ Hv). by simplify_map_eq.
Qed.

Lemma outbound_headers_are_the_allow_list_witness :
  ∃ up, upstream (run (@handle Reference.platform Sample.get_echo_with_credentials Res.fresh)
                      [UpResponse Sample.event_stream; ReqClose]) = Some up
    ∧ let hs := Options.headers (Up.options up) in
      dom hs = ({[ "Accept"; "Content-Type"; "Cache-Control"; "Connection"; "User-Agent" ]}
                : gset string)
      ∧ (∀ name, name ∉ outbound_names → hs !! name = None)
      ∧ (∀ v, Req.headers Sample.get_echo_with_credentials !! "accept" = Some v →
           v ≠ EmptyString → hs !! "Accept" = Some v)
      ∧ (Req.headers Sample.get_echo_with_credentials !! "accept" = None
         ∨ Req.headers Sample.get_echo_with_credentials !! "accept" = Some EmptyString →
         hs !! "Accept" = Some "text/event-stream")
      ∧ (∀ v, Req.headers Sample.get_echo_with_credentials !! "content-type" = Some v →
           v ≠ EmptyString → hs !! "Content-Type" = Some v)
      ∧ (Req.headers Sample.get_echo_with_credentials !! "content-type" = None
         ∨ Req.headers Sample.get_echo_with_credentials !! "content-type" = Some EmptyString →
         hs !! "Content-Type" = Some "application/json")
      ∧ hs !! "Cache-Control" = Some "no-cache"
      ∧ hs !! "Connection" = Some "keep-alive"
      ∧ hs !! "User-Agent" = Some "mcp-inspector-local-proxy".
Proof.
  apply (@outbound_headers_are_the_allow_list Reference.platform
           Sample.get_echo_with_credentials
           (URL.mk "http:" "proxy.example" "6277" "/sse" "?url=http://127.0.0.1:9001/echo"
                   [("url", "http://127.0.0.1:9001/echo")])
           Sample.echo_url "http://127.0.0.1:9001/echo").
  - reflexivity.
  - reflexivity.
  - discriminate.
  - reflexivity.
  - reflexivity.
Defined.

Lemma make_options_agree (r1 r2 : Req.t) (t : URL.t) :
  Req.method r1 = Req.method r2 →
  Req.headers r1 !! "accept" = Req.headers r2 !! "accept" →
  Req.headers r1 !! "content-type" = Req.headers r2 !! "content-type" →
  make_options r1 t = make_options r2 t.
Proof. intros Hm Ha Hc. unfold make_options. by rewrite Hm, Ha, Hc. Qed.

(** The reference parser reads the query of a reference that starts
    with a slash from the reference alone. *)
Lemma reference_query_from_reference : query_from_reference Reference.platform.
Proof.
  intros input b1 b2 u1 u2 Hslash. simpl. unfold Reference.parse_URL.
  assert (Reference.parse_absolute input = None) as ->.
  { destruct input as [|a input]; [done|].
    simpl in Hslash. destruct (Ascii.eqb_spec a "/"); [subst|done]. reflexivity. }
  destruct (Reference.parse_absolute b1), (Reference.parse_absolute b2); try done.
  destruct (JS.startsWith input "/" && negb (JS.startsWith input "//"))%bool; [|done].
  destruct (Reference.path_and_query input) as [path query].
  intros [= <-] [= <-]. reflexivity.
Qed.

(** C10. Take two requests with the same method and the same request
    target, which begins with [/sse], and the same [Accept] and
    [Content-Type] headers; every other inbound header, [Authorization],
    [Cookie], [Origin] and [Host] included, may differ. On a runtime that
    reads the query from the request target, if [proxySSE] creates an
    outbound request for each, the two outbound requests are equal:
    same client, same options, same body so far. No [Authorization]
    header is among their headers. *)
Theorem outbound_request_ignores_other_headers `{P : Platform} (r1 r2 : Req.t)
    (up1 up2 : Up.t) :
  query_from_reference P →
  JS.startsWith (Req.url r1) "/sse" = true →
  Req.method r1 = Req.method r2 →
  Req.url r1 = Req.url r2 →
  Req.headers r1 !! "accept" = Req.headers r2 !! "accept" →
  Req.headers r1 !! "content-type" = Req.headers r2 !! "content-type" →
  upstream (handle r1 Res.fresh) = Some up1 →
  upstream (handle r2 Res.fresh) = Some up2 →
  up1 = up2
  ∧ Options.headers (Up.options up1) !! "Authorization" = None
  ∧ Options.headers (Up.options up1) !! "authorization" = None.
Proof.
  intros Hq Hsse Hm Hurl Ha Hc Hup1 Hup2.
  pose proof (sse_target_is_rooted _ Hsse) as Hslash.
  destruct (handle_outcome r1) as [e| |u1 t1 target1 Hu1 Hg1 Hne1 Ht1 Hc1]; try discriminate.
  destruct (handle_outcome r2) as [e| |u2 t2 target2 Hu2 Hg2 Hne2 Ht2 Hc2]; try discriminate.
  rewrite <- Hurl in Hu2.
  assert (target1 = target2) as <-.
  { unfold URL.get in Hg1, Hg2.
    rewrite (Hq _ _ _ _ _ Hslash Hu1 Hu2) in Hg1. congruence. }
  assert (t1 = t2) as <- by congruence.
  assert (relay_session r1 t1 = relay_session r2 t1) as Hsame.
  { unfold relay_session. by rewrite (make_options_agree r1 r2 t1 Hm Ha Hc), Hm. }
  split; [congruence|].
  destruct (relay_session_upstream r1 t1) as (up & Hup & Ho & _).
  assert (up1 = up) as -> by congruence.
  rewrite Ho, make_options_headers.
  split; (rewrite !lookup_insert_ne by done; by apply lookup_singleton_ne).
Qed.

Lemma outbound_request_ignores_other_headers_witness :
  ∃ up, upstream (@handle Reference.platform Sample.get_echo Res.fresh) = Some up
    ∧ upstream (@handle Reference.platform Sample.get_echo_with_credentials Res.fresh) = Some up
    ∧ Options.headers (Up.options up) !! "Authorization" = None
    ∧ Options.headers (Up.options up) !! "authorization" = None.
Proof.
  exists (Up.end_ (Up.create http (make_options Sample.get_echo
                                     Sample.echo_url))).
  split; [reflexivity|].
  destruct (@outbound_request_ignores_other_headers Reference.platform
              Sample.get_echo Sample.get_echo_with_credentials
              (Up.end_ (Up.create http (make_options Sample.get_echo
                                          Sample.echo_url)))
              (Up.end_ (Up.create http (make_options
                                          Sample.get_echo_with_credentials Sample.echo_url)))
              reference_query_from_reference)
    as (Heq & Hauth & Hauth'); try reflexivity.
  split; [|split]; [|exact Hauth|exact Hauth'].
  rewrite Heq. reflexivity.
Defined.

(** ** Forwarding the request body *)

(** C5. Once [proxySSE] has created the outbound request: if the method
    is POST then, as long as the process is alive and the inbound stream
    delivers nothing after its end, the outbound request has received
    exactly the chunks posted so far, in order, and it is ended exactly
    when the inbound body has signalled its end; if the method is not
    POST, the outbound request is ended from the start and never receives
    a chunk, whatever arrives. As the events are arbitrary, this holds
    after every single event: a chunk is forwarded when it arrives. *)
Theorem request_body_forwarded_iff_post `{P : Platform} (req : Req.t) (evs : list Event) :
  is_Some (upstream (handle req Res.fresh)) →
  let s := run (handle req Res.fresh) evs in
  (Req.method req = "POST" → inbound_ok evs = true → uncaught s = None →
   ∃ up, upstream s = Some up
         ∧ Up.written up = posted evs
         ∧ Up.ended up = completed evs)
  ∧ (Req.method req ≠ "POST" →
     ∃ up, upstream s = Some up
           ∧ Up.written up = []
           ∧ Up.ended up = true).
Proof.
  intros [up0 Hup0] s. subst s.
  destruct (handle_upstream req up0 Hup0) as [t Hrelay]. rewrite Hrelay.
  unfold relay_session. split.
  - intros Hpost Hok Halive. revert Halive. rewrite Hpost. simpl. intros Halive.
    by apply (forwarding evs _ (Up.create (select_client t) (make_options req t))).
  - intros Hother. apply String.eqb_neq in Hother. rewrite Hother.
    by apply (deaf_to_body evs _ (Up.end_ (Up.create (select_client t) (make_options req t)))).
Qed.

Lemma request_body_forwarded_iff_post_witness :
  (∃ up, upstream (run (@handle Reference.platform Sample.post_echo Res.fresh)
                       [ReqData "a=1"; UpResponse Sample.event_stream; ReqData "&b=2"; ReqEnd])
         = Some up
         ∧ Up.written up = ["a=1"; "&b=2"]
         ∧ Up.ended up = true)
  ∧ (∃ up, upstream (run (@handle Reference.platform Sample.get_echo Res.fresh)
                         [ReqData "a=1"; ReqEnd]) = Some up
           ∧ Up.written up = []
           ∧ Up.ended up = true).
Proof.
  split.
  - apply (@request_body_forwarded_iff_post Reference.platform Sample.post_echo
             [ReqData "a=1"; UpResponse Sample.event_stream; ReqData "&b=2"; ReqEnd]).
    + eexists. reflexivity.
    + reflexivity.
    + reflexivity.
    + reflexivity.
  - apply (@request_body_forwarded_iff_post Reference.platform Sample.get_echo
             [ReqData "a=1"; ReqEnd]).
    + eexists. reflexivity.
    + discriminate.
Defined.

(** ** Failures of the outbound request *)

(** C7. When the outbound request of a session fails while the head of
    the caller's response is still pending, the ['error'] listener
    answers 502 with content type [application/json] and the body
    [{"error":"bad gateway","message":...}] carrying the message of the
    failure, and ends the response. *)
Theorem connect_failure_answers_502 `{P : Platform} (req : Req.t) (evs : list Event)
    (e : JS.Error) :
  let s := run (handle req Res.fresh) evs in
  is_Some (upstream s) →
  uncaught s = None →
  Res.headersSent (res s) = false →
  let s' := dispatch s (UpError e) in
  Res.statusCode (res s') = 502
  ∧ Res.headers (res s') !! "content-type" = Some "application/json"
  ∧ Res.body (res s')
    = [JSON.stringify [("error", JSON.Str "bad gateway"); ("message", JSON.Str (JS.message e))]]
  ∧ Res.finished (res s') = true
  ∧ uncaught s' = None.
Proof.
  intros s Hup Halive Hhead s'. subst s'.
  destruct (reachable_sound req evs) as [Herr Hpending]. fold s in Herr, Hpending.
  specialize (Herr Hup). destruct (Hpending Hhead) as (Hbody & Hfin & _).
  clearbody s. open_session s; simplify_eq; try by destruct Hup.
  unfold_listeners. simpl. repeat split; try done.
  unfold Res.merge, application_json. simpl. by simplify_map_eq.
Qed.

Lemma connect_failure_answers_502_witness :
  let s' := dispatch (run (@handle Reference.platform Sample.post_echo Res.fresh) [ReqData "a=1"])
                     (UpError Sample.hang_up) in
  Res.statusCode (res s') = 502
  ∧ Res.headers (res s') !! "content-type" = Some "application/json"
  ∧ Res.body (res s')
    = [JSON.stringify [("error", JSON.Str "bad gateway");
                       ("message", JSON.Str "socket hang up")]]
  ∧ Res.finished (res s') = true
  ∧ uncaught s' = None.
Proof.
  apply (@connect_failure_answers_502 Reference.platform Sample.post_echo [ReqData "a=1"]
           Sample.hang_up).
  - eexists. reflexivity.
  - reflexivity.
  - reflexivity.
Defined.

(** ** The head of the relayed response *)

Lemma announced_event_stream ur v :
  Ur.headers ur !! "content-type" = Some v →
  JS.includes v "text/event-stream" = true →
  announced_type ur = "text/event-stream".
Proof.
  intros Hv Hinc. unfold announced_type. rewrite Hv.
  destruct v as [|a v]; [done|]. simpl JS.or_else. by rewrite Hinc.
Qed.

Lemma announced_upstream ur v :
  Ur.headers ur !! "content-type" = Some v →
  v ≠ EmptyString →
  JS.includes v "text/event-stream" = false →
  announced_type ur = v.
Proof.
  intros Hv Hne Hinc. unfold announced_type. rewrite Hv.
  destruct v as [|a v]; [done|]. simpl JS.or_else. by rewrite Hinc.
Qed.

Lemma announced_default ur :
  Ur.headers ur !! "content-type" = None ∨ Ur.headers ur !! "content-type" = Some EmptyString →
  announced_type ur = "application/json".
Proof. unfold announced_type. by intros [-> | ->]. Qed.

(** C1. When the upstream response arrives at a session whose head is
    still pending, the head is committed with: content type
    [text/event-stream] if the upstream content type contains that
    text; otherwise the upstream content type itself, and
    [application/json] if the upstream has none or an empty one;
    [Cache-Control: no-cache], [Connection: keep-alive] and
    [Access-Control-Allow-Origin: *] in both cases; and the upstream
    status code, 200 standing in for a missing one (or for 0, which
    JavaScript treats alike). *)
Theorem response_head_from_upstream `{P : Platform} (req : Req.t) (evs : list Event)
    (ur : Ur.t) :
  let s := run (handle req Res.fresh) evs in
  is_Some (upstream s) →
  uncaught s = None →
  Res.headersSent (res s) = false →
  let r := res (dispatch s (UpResponse ur)) in
  let ct := Ur.headers ur !! "content-type" in
  Res.headersSent r = true
  ∧ (∀ v, ct = Some v → JS.includes v "text/event-stream" = true →
       Res.headers r !! "content-type" = Some "text/event-stream")
  ∧ (∀ v, ct = Some v → v ≠ EmptyString → JS.includes v "text/event-stream" = false →
       Res.headers r !! "content-type" = Some v)
  ∧ (ct = None ∨ ct = Some EmptyString →
     Res.headers r !! "content-type" = Some "application/json")
  ∧ Res.headers r !! "cache-control" = Some "no-cache"
  ∧ Res.headers r !! "connection" = Some "keep-alive"
  ∧ Res.headers r !! "access-control-allow-origin" = Some "*"
  ∧ (∀ n, Ur.statusCode ur = Some n → n ≠ 0 → Res.statusCode r = n)
  ∧ (Ur.statusCode ur = None ∨ Ur.statusCode ur = Some 0 → Res.statusCode r = 200).
Proof.
  intros s Hup Halive Hhead r ct. subst r ct.
  rewrite (response_arrives s ur Hup Halive Hhead).
  cbn [res Res.headers Res.statusCode Res.headersSent].
  destruct (head_fixed (Res.headers (res s)) ur) as (Hcc & Hconn & Hcors).
  rewrite head_content_type.
  repeat split; try done.
  - intros v Hv Hinc. by rewrite (announced_event_stream ur v).
  - intros v Hv Hne Hinc. by rewrite (announced_upstream ur v).
  - intros Hv. by rewrite announced_default.
  - intros n -> Hn. simpl. by destruct (Z.eqb_spec n 0).
  - by intros [-> | ->].
Qed.

Lemma response_head_from_upstream_witness :
  let r := res (dispatch (run (@handle Reference.platform Sample.get_echo Res.fresh) [ReqClose])
                         (UpResponse Sample.event_stream)) in
  let ct := Ur.headers Sample.event_stream !! "content-type" in
  Res.headersSent r = true
  ∧ (∀ v, ct = Some v → JS.includes v "text/event-stream" = true →
       Res.headers r !! "content-type" = Some "text/event-stream")
  ∧ (∀ v, ct = Some v → v ≠ EmptyString → JS.includes v "text/event-stream" = false →
       Res.headers r !! "content-type" = Some v)
  ∧ (ct = None ∨ ct = Some EmptyString →
     Res.headers r !! "content-type" = Some "application/json")
  ∧ Res.headers r !! "cache-control" = Some "no-cache"
  ∧ Res.headers r !! "connection" = Some "keep-alive"
  ∧ Res.headers r !! "access-control-allow-origin" = Some "*"
  ∧ (∀ n, Ur.statusCode Sample.event_stream = Some n → n ≠ 0 → Res.statusCode r = n)
  ∧ (Ur.statusCode Sample.event_stream = None ∨ Ur.statusCode Sample.event_stream = Some 0 →
     Res.statusCode r = 200).
Proof.
  apply (@response_head_from_upstream Reference.platform Sample.get_echo [ReqClose]
           Sample.event_stream).
  - eexists. reflexivity.
  - reflexivity.
  - reflexivity.
Defined.

(** Once the head is committed and while the response is open, the
    ['error'] listener of the outbound request leaves the status alone
    and ends the response with its JSON error text as a last chunk. *)
Lemma late_failure_appends_error_text (s : Session) (e : JS.Error) :
  on_error s = true →
  uncaught s = None →
  Res.headersSent (res s) = true →
  Res.finished (res s) = false →
  res (dispatch s (UpError e))
  = Res.mk true (Res.statusCode (res s)) (Res.headers (res s))
           (Res.body (res s) ++ [JSON.stringify (bad_gateway e)]) true.
Proof.
  intros Herr Halive Hhead Hfin. open_session s; simplify_eq.
  all: unfold_listeners; by_cases.
Qed.

(** C3. An outbound failure after the head is committed: the request
    [GET /sse?url=http://127.0.0.1:9001/echo] is being relayed, the
    upstream has answered 200 with an event stream and sent one chunk,
    and then the outbound request reports [socket hang up]. The status
    stays 200 and the response is ended, but the ['error'] listener hands
    its JSON error text to [res.end], so the text is written to the
    caller after the chunk. *)
Theorem committed_response_gets_error_body :
  let s := run (@handle Reference.platform Sample.get_echo Res.fresh)
               [UpResponse Sample.event_stream; UrData "data: tick"] in
  let s' := dispatch s (UpError Sample.hang_up) in
  Res.headersSent (res s) = true
  ∧ Res.statusCode (res s) = 200
  ∧ Res.body (res s) = ["data: tick"]
  ∧ Res.statusCode (res s') = 200
  ∧ Res.finished (res s') = true
  ∧ Res.body (res s')
    = ["data: tick";
       "{" +:+ dq +:+ "error" +:+ dq +:+ ":" +:+ dq +:+ "bad gateway" +:+ dq +:+ ","
           +:+ dq +:+ "message" +:+ dq +:+ ":" +:+ dq +:+ "socket hang up" +:+ dq +:+ "}"]
  ∧ Res.body (res s') ≠ Res.body (res s).
Proof. repeat split. vm_compute. discriminate. Qed.

(** ** What the caller receives *)

(** As C8 states it, every header of the upstream response would reach
    the caller. On the reference runtime the upstream answers
    [GET /sse?url=http://127.0.0.1:9001/echo] with the headers
    [Content-Type: application/json] and [X-Request-Id: 42]; the
    response to the caller, once complete, has no [X-Request-Id]. *)
Lemma upstream_header_is_dropped :
  let s := run (@handle Reference.platform Sample.get_echo Res.fresh)
               [UpResponse Sample.json_with_extras; UrData "{}"; UrEnd] in
  Ur.headers Sample.json_with_extras !! "x-request-id" = Some "42"
  ∧ Res.finished (res s) = true
  ∧ Res.body (res s) = ["{}"]
  ∧ Res.headers (res s) !! "x-request-id" = None
  ∧ Res.headers (res s) !! "x-request-id" ≠ Ur.headers Sample.json_with_extras !! "x-request-id".
Proof. repeat split. vm_compute. discriminate. Qed.

(** C8, amended. In an exchange where the upstream response arrives,
    its body is streamed and it ends, with nothing but events of the
    caller's side in between, the caller's response has the upstream
    status code (200 for a missing one), the chunks of the upstream body
    in order as its body, and is ended. Of the upstream headers only the
    content type is used: the header table of the response consists of
    the announced content type, [Cache-Control: no-cache],
    [Connection: keep-alive] and the three CORS headers, and nothing
    else. *)
Theorem successful_exchange_mirrors_status_and_body `{P : Platform} (req : Req.t)
    (ur : Ur.t) (pre mid : list Event) :
  is_Some (upstream (handle req Res.fresh)) →
  forallb is_inbound pre = true →
  forallb is_relay mid = true →
  inbound_ok (pre ++ UpResponse ur :: mid ++ [UrEnd]) = true →
  let s := run (handle req Res.fresh) (pre ++ UpResponse ur :: mid ++ [UrEnd]) in
  Res.statusCode (res s) = JS.or_elseZ (Ur.statusCode ur) 200
  ∧ Res.body (res s) = streamed mid
  ∧ Res.finished (res s) = true
  ∧ uncaught s = None
  ∧ Res.headers (res s)
    = <["access-control-allow-origin" := "*"]>
        (<["connection" := "keep-alive"]>
           (<["cache-control" := "no-cache"]>
              (<["content-type" := announced_type ur]>
                 (<["access-control-allow-headers" :=
                      "Content-Type, Authorization, Accept, Cache-Control"]>
                    (<["access-control-allow-methods" := "GET,POST,OPTIONS,HEAD"]>
                       {[ "access-control-allow-origin" := "*" ]})))))
  ∧ (∀ name, name ∉ relayed_names → Res.headers (res s) !! name = None).
Proof.
  intros [up0 Hup0] Hpre Hmid Hok s. subst s.
  destruct (handle_upstream req up0 Hup0) as [t Hrelay]. rewrite Hrelay in *.
  set (s0 := relay_session req t).
  assert (res s0 = cors_res ∧ on_ur s0 = false ∧ uncaught s0 = None
          ∧ calm s0 (pre ++ UpResponse ur :: mid ++ [UrEnd]) = true) as (Hr0 & Hu0 & Ha0 & Hc0).
  { unfold s0, relay_session, calm.
    by destruct (String.eqb (Req.method req) "POST"). }
  (* the caller's side moves first *)
  destruct (quiet_stage pre s0 _ Hpre Hc0) as (Hr1 & Hu1 & Ha1).
  pose proof (calm_run _ _ _ Hc0) as Hc1.
  destruct (run_upstream pre s0 up0 Hup0) as (up1 & Hup1 & _).
  rewrite run_app, run_cons.
  set (s1 := run s0 pre) in *.
  (* the head arrives *)
  assert (Res.headersSent (res s1) = false) as Hpending by by rewrite Hr1, Hr0.
  pose proof (response_arrives s1 ur (ex_intro _ up1 Hup1) ltac:(congruence) Hpending) as Hs2.
  pose proof (calm_step _ _ _ Hc1) as Hc2.
  set (s2 := dispatch s1 (UpResponse ur)) in *.
  (* the body is streamed *)
  destruct (relay_stage mid s2 [UrEnd] Hmid Hc2) as (Hr3 & Hu3 & Ha3);
    try (by rewrite Hs2).
  { rewrite Hs2. simpl. by rewrite Hr1, Hr0. }
  rewrite run_app. set (s3 := run s2 mid) in *.
  (* and ends *)
  assert (run s3 [UrEnd]
          = set_res (Res.mk true (Res.statusCode (res s3)) (Res.headers (res s3))
                            (Res.body (res s3)) true) s3) as ->.
  { clear -Hr3 Hu3 Ha3. clearbody s3. open_session s3; simplify_eq.
    all: unfold run; simpl; unfold_listeners; simpl; by rewrite app_nil_r. }
  assert (Res.headers (res s3) = relayed_headers ur) as Hheaders.
  { rewrite Hr3, Hs2. simpl. by rewrite Hr1, Hr0. }
  simpl. rewrite Hr3. simpl. rewrite Hs2. simpl. rewrite Hr1, Hr0.
  repeat split; try done.
  intros name Hname. by apply relayed_headers_other.
Qed.

Lemma successful_exchange_mirrors_status_and_body_witness :
  let s := run (@handle Reference.platform Sample.post_echo Res.fresh)
               ([ReqData "a=1"] ++ UpResponse Sample.json_with_extras
                  :: [UrData "{"; ReqEnd; UrData "}"] ++ [UrEnd]) in
  Res.statusCode (res s) = JS.or_elseZ (Ur.statusCode Sample.json_with_extras) 200
  ∧ Res.body (res s) = streamed [UrData "{"; ReqEnd; UrData "}"]
  ∧ Res.finished (res s) = true
  ∧ uncaught s = None
  ∧ Res.headers (res s)
    = <["access-control-allow-origin" := "*"]>
        (<["connection" := "keep-alive"]>
           (<["cache-control" := "no-cache"]>
              (<["content-type" := announced_type Sample.json_with_extras]>
                 (<["access-control-allow-headers" :=
                      "Content-Type, Authorization, Accept, Cache-Control"]>
                    (<["access-control-allow-methods" := "GET,POST,OPTIONS,HEAD"]>
                       {[ "access-control-allow-origin" := "*" ]})))))
  ∧ (∀ name, name ∉ relayed_names → Res.headers (res s) !! name = None).
Proof.
  apply (@successful_exchange_mirrors_status_and_body Reference.platform Sample.post_echo
           Sample.json_with_extras [ReqData "a=1"] [UrData "{"; ReqEnd; UrData "}"]).
  - eexists. reflexivity.
  - reflexivity.
  - reflexivity.
  - reflexivity.
Defined.

(** ** Disconnects and upstream failures *)

(** As C9 states it, the caller going away would close the outbound
    request. On the reference runtime, while an event stream is being
    relayed for [GET /sse?url=http://127.0.0.1:9001/echo], the caller's
    disconnect changes nothing in the session: the outbound request is
    not destroyed, and the next chunk of the upstream is still handed to
    [res.write]. *)
Lemma caller_disconnect_leaves_upstream_open :
  let s := run (@handle Reference.platform Sample.get_echo Res.fresh)
               [UpResponse Sample.event_stream; UrData "data: tick"] in
  dispatch s ReqClose = s
  ∧ Up.destroyed <$> upstream (dispatch s ReqClose) = Some false
  ∧ Res.body (res (run s [ReqClose; UrData "data: tock"])) = ["data: tick"; "data: tock"]
  ∧ ¬ (Up.destroyed <$> upstream (dispatch s ReqClose) = Some true).
Proof. repeat split. vm_compute. discriminate. Qed.

Lemma relay_session_open req t up :
  upstream (relay_session req t) = Some up → Up.destroyed up = false.
Proof.
  unfold relay_session. destruct (String.eqb (Req.method req) "POST"); by intros [= <-].
Qed.

(** C9, amended. In every session [proxySSE] starts, at any time: the
    caller going away is not listened for, so it leaves the session as
    it is, and the proxy never destroys the outbound request; a failure
    of the upstream response stream ends the caller's response, and so
    does a failure of the outbound request. *)
Theorem disconnect_ignored_upstream_failure_ends_stream `{P : Platform} (req : Req.t)
    (evs : list Event) :
  let s := run (handle req Res.fresh) evs in
  dispatch s ReqClose = s
  ∧ (∀ up, upstream s = Some up → Up.destroyed up = false)
  ∧ (uncaught s = None → on_ur s = true → Res.finished (res (dispatch s UrError)) = true)
  ∧ (uncaught s = None → is_Some (upstream s) →
     ∀ e, Res.finished (res (dispatch s (UpError e))) = true).
Proof.
  intros s. split; [|split; [|split]].
  - unfold dispatch. simpl. by destruct (uncaught s).
  - intros up Hup. unfold s in Hup.
    destruct (handle_outcome req) as [e| |u t target];
      try by rewrite run_inert in Hup.
    destruct (relay_session_upstream req t) as (up0 & Hup0 & _).
    destruct (run_upstream evs _ _ Hup0) as (up' & Hup' & _ & _ & Hd).
    assert (up = up') as <- by congruence.
    rewrite Hd. by apply (relay_session_open req t).
  - intros Halive Hur. clearbody s. open_session s; simplify_eq.
    all: unfold_listeners; by_cases.
  - intros Halive Hup e.
    destruct (reachable_sound req evs) as [Herr _]. fold s in Herr.
    specialize (Herr Hup). clearbody s. open_session s; simplify_eq.
    all: unfold_listeners; by_cases.
Qed.

Lemma disconnect_ignored_upstream_failure_ends_stream_witness :
  let s := run (@handle Reference.platform Sample.get_echo Res.fresh)
               [UpResponse Sample.event_stream; UrData "data: tick"] in
  dispatch s ReqClose = s
  ∧ (∀ up, upstream s = Some up → Up.destroyed up = false)
  ∧ Res.finished (res (dispatch s UrError)) = true
  ∧ (∀ e, Res.finished (res (dispatch s (UpError e))) = true).
Proof.
  destruct (@disconnect_ignored_upstream_failure_ends_stream Reference.platform
              Sample.get_echo [UpResponse Sample.event_stream; UrData "data: tick"])
    as (Hclose & Hopen & Hur & Hup).
  split; [exact Hclose|]. split; [exact Hopen|]. split.
  - apply Hur; reflexivity.
  - apply Hup; [reflexivity | eexists; reflexivity].
Defined.

(** * Further properties of the server *)

(** ** The request listener *)

Lemma not_preflight (m : string) :
  m ≠ "OPTIONS" → m ≠ "HEAD" →
  (String.eqb m "OPTIONS" || String.eqb m "HEAD")%bool = false.
Proof. intros Ho Hh. apply String.eqb_neq in Ho, Hh. by rewrite Ho, Hh. Qed.

(** X1. A request whose method is OPTIONS or HEAD is answered at once,
    whatever its path and query: status 200, no body, the response
    ended, the three CORS headers and no content type. It never reaches
    [proxySSE]: no outbound request exists, then or after any event. *)
Theorem options_and_head_are_answered_at_once `{P : Platform} (now : string) (req : Req.t) :
  Req.method req = "OPTIONS" ∨ Req.method req = "HEAD" →
  let s := served now req in
  Res.statusCode (res s) = 200
  ∧ Res.body (res s) = []
  ∧ Res.finished (res s) = true
  ∧ has_cors (Res.headers (res s))
  ∧ Res.headers (res s) !! "content-type" = None
  ∧ ∀ evs, upstream (run s evs) = None.
Proof.
  intros Hm s.
  assert (s = start (Res.mk true 200 (Res.headers cors_res) [] true)) as ->.
  { unfold s, served, server. by destruct Hm as [-> | ->]. }
  repeat split; try done. intros evs. by rewrite run_inert.
Qed.

Lemma options_and_head_are_answered_at_once_witness :
  let s := @served Reference.platform "2026-01-01T00:00:00.000Z" Route.preflight in
  Res.statusCode (res s) = 200
  ∧ Res.body (res s) = []
  ∧ Res.finished (res s) = true
  ∧ has_cors (Res.headers (res s))
  ∧ Res.headers (res s) !! "content-type" = None
  ∧ ∀ evs, upstream (run s evs) = None.
Proof.
  apply (@options_and_head_are_answered_at_once Reference.platform
           "2026-01-01T00:00:00.000Z" Route.preflight).
  left. reflexivity.
Defined.

(** X2. For a method other than OPTIONS and HEAD, a request target that
    begins with [/health] is answered by [health], whatever follows the
    prefix and before any other route is tried: status 200, content type
    [application/json], the body [{"ok":true,"time":...}] with the
    current time as a JSON string, the CORS headers, the response
    ended, and no outbound request. *)
Theorem health_prefix_answers_200 `{P : Platform} (now : string) (req : Req.t) :
  Req.method req ≠ "OPTIONS" →
  Req.method req ≠ "HEAD" →
  JS.startsWith (Req.url req) "/health" = true →
  let s := served now req in
  Res.statusCode (res s) = 200
  ∧ Res.body (res s)
    = ["{" +:+ dq +:+ "ok" +:+ dq +:+ ":true," +:+ dq +:+ "time" +:+ dq +:+ ":"
           +:+ JSON.quote now +:+ "}"]
  ∧ Res.headers (res s) !! "content-type" = Some "application/json"
  ∧ has_cors (Res.headers (res s))
  ∧ Res.finished (res s) = true
  ∧ ∀ evs, upstream (run s evs) = None.
Proof.
  intros Ho Hh Hroute s.
  assert (s = start (json_reply 200 [("ok", JSON.Bool true); ("time", JSON.Str now)])) as ->.
  { unfold s, served, server. by rewrite (not_preflight _ Ho Hh), Hroute. }
  repeat split; try done. intros evs. by rewrite run_inert.
Qed.

Lemma health_prefix_answers_200_witness :
  let now := "2026-01-01T00:00:00.000Z" in
  let s := @served Reference.platform now Route.post_health in
  Res.statusCode (res s) = 200
  ∧ Res.body (res s)
    = ["{" +:+ dq +:+ "ok" +:+ dq +:+ ":true," +:+ dq +:+ "time" +:+ dq +:+ ":"
           +:+ JSON.quote now +:+ "}"]
  ∧ Res.headers (res s) !! "content-type" = Some "application/json"
  ∧ has_cors (Res.headers (res s))
  ∧ Res.finished (res s) = true
  ∧ ∀ evs, upstream (run s evs) = None.
Proof.
  apply (@health_prefix_answers_200 Reference.platform "2026-01-01T00:00:00.000Z"
           Route.post_health).
  - discriminate.
  - discriminate.
  - reflexivity.
Defined.

(** X3. For a method other than OPTIONS and HEAD, a request target that
    begins with [/config] is answered with status 200 and the body
    [{"ok":true}], as JSON, with the CORS headers; nothing is read or
    stored and no outbound request is made. *)
Theorem config_prefix_answers_ok `{P : Platform} (now : string) (req : Req.t) :
  Req.method req ≠ "OPTIONS" →
  Req.method req ≠ "HEAD" →
  JS.startsWith (Req.url req) "/config" = true →
  let s := served now req in
  Res.statusCode (res s) = 200
  ∧ Res.body (res s) = ["{" +:+ dq +:+ "ok" +:+ dq +:+ ":true}"]
  ∧ Res.headers (res s) !! "content-type" = Some "application/json"
  ∧ has_cors (Res.headers (res s))
  ∧ Res.finished (res s) = true
  ∧ ∀ evs, upstream (run s evs) = None.
Proof.
  intros Ho Hh Hroute s.
  assert (JS.startsWith (Req.url req) "/health" = false
          ∧ JS.startsWith (Req.url req) "/sse" = false) as [Hhealth Hsse].
  { destruct (Req.url req) as [|a [|b rest]]; simpl in *; try done.
    - by destruct (Ascii.eqb a "/").
    - destruct (Ascii.eqb a "/"); [|done].
      destruct (Ascii.eqb_spec b "c") as [->|]; done. }
  assert (s = start (json_reply 200 [("ok", JSON.Bool true)])) as ->.
  { unfold s, served, server. by rewrite (not_preflight _ Ho Hh), Hhealth, Hsse, Hroute. }
  repeat split; try done. intros evs. by rewrite run_inert.
Qed.

Lemma config_prefix_answers_ok_witness :
  let s := @served Reference.platform "2026-01-01T00:00:00.000Z" Route.get_config in
  Res.statusCode (res s) = 200
  ∧ Res.body (res s) = ["{" +:+ dq +:+ "ok" +:+ dq +:+ ":true}"]
  ∧ Res.headers (res s) !! "content-type" = Some "application/json"
  ∧ has_cors (Res.headers (res s))
  ∧ Res.finished (res s) = true
  ∧ ∀ evs, upstream (run s evs) = None.
Proof.
  apply (@config_prefix_answers_ok Reference.platform "2026-01-01T00:00:00.000Z"
           Route.get_config).
  - discriminate.
  - discriminate.
  - reflexivity.
Defined.

(** X4. For a method other than OPTIONS and HEAD, a request target that
    begins with none of [/health], [/sse] and [/config] is answered with
    status 404 and the body [{"error":"not found"}], as JSON, with the
    CORS headers, and no outbound request is made. *)
Theorem other_paths_answer_404 `{P : Platform} (now : string) (req : Req.t) :
  Req.method req ≠ "OPTIONS" →
  Req.method req ≠ "HEAD" →
  JS.startsWith (Req.url req) "/health" = false →
  JS.startsWith (Req.url req) "/sse" = false →
  JS.startsWith (Req.url req) "/config" = false →
  let s := served now req in
  Res.statusCode (res s) = 404
  ∧ Res.body (res s)
    = ["{" +:+ dq +:+ "error" +:+ dq +:+ ":" +:+ dq +:+ "not found" +:+ dq +:+ "}"]
  ∧ Res.headers (res s) !! "content-type" = Some "application/json"
  ∧ has_cors (Res.headers (res s))
  ∧ Res.finished (res s) = true
  ∧ ∀ evs, upstream (run s evs) = None.
Proof.
  intros Ho Hh Hhealth Hsse Hconfig s.
  assert (s = start (json_reply 404 [("error", JSON.Str "not found")])) as ->.
  { unfold s, served, server.
    by rewrite (not_preflight _ Ho Hh), Hhealth, Hsse, Hconfig. }
  repeat split; try done. intros evs. by rewrite run_inert.
Qed.

Lemma other_paths_answer_404_witness :
  let s := @served Reference.platform "2026-01-01T00:00:00.000Z" Route.get_root in
  Res.statusCode (res s) = 404
  ∧ Res.body (res s)
    = ["{" +:+ dq +:+ "error" +:+ dq +:+ ":" +:+ dq +:+ "not found" +:+ dq +:+ "}"]
  ∧ Res.headers (res s) !! "content-type" = Some "application/json"
  ∧ has_cors (Res.headers (res s))
  ∧ Res.finished (res s) = true
  ∧ ∀ evs, upstream (run s evs) = None.
Proof.
  apply (@other_paths_answer_404 Reference.platform "2026-01-01T00:00:00.000Z"
           Route.get_root).
  - discriminate.
  - discriminate.
  - reflexivity.
  - reflexivity.
  - reflexivity.
Defined.

(** X14. For a method other than OPTIONS and HEAD, a request target
    that begins with [/sse], whatever follows the prefix, is handled by
    [proxySSE] and by nothing else: the session the request listener
    leaves behind is the one [proxySSE] leaves behind, and the time of
    the request plays no part. *)
Theorem sse_prefix_is_handled_by_proxySSE `{P : Platform} (now : string) (req : Req.t) :
  Req.method req ≠ "OPTIONS" →
  Req.method req ≠ "HEAD" →
  JS.startsWith (Req.url req) "/sse" = true →
  served now req = handle req Res.fresh.
Proof.
  intros Ho Hh Hsse. unfold served, handle.
  by rewrite (server_delegates now req Ho Hh Hsse).
Qed.

Lemma sse_prefix_is_handled_by_proxySSE_witness :
  @served Reference.platform "2026-01-01T00:00:00.000Z" Route.sse_suffix
  = @handle Reference.platform Route.sse_suffix Res.fresh
  ∧ Res.statusCode (res (@served Reference.platform "2026-01-01T00:00:00.000Z"
                           Route.sse_suffix)) = 400.
Proof.
  split; [|reflexivity].
  apply (@sse_prefix_is_handled_by_proxySSE Reference.platform "2026-01-01T00:00:00.000Z"
           Route.sse_suffix).
  - discriminate.
  - discriminate.
  - reflexivity.
Defined.

(** The request listener either answers at once, with the CORS headers
    on an ended response and no outbound request, or is [proxySSE]. *)
Lemma served_cases `{P : Platform} (now : string) (req : Req.t) :
  (∃ r, served now req = start r
        ∧ Res.finished r = true ∧ Res.headersSent r = true ∧ has_cors (Res.headers r))
  ∨ served now req = handle req Res.fresh.
Proof.
  unfold served, server, handle.
  destruct (String.eqb (Req.method req) "OPTIONS" || String.eqb (Req.method req) "HEAD")%bool.
  { left. by eexists. }
  destruct (JS.startsWith (Req.url req) "/health").
  { left. by eexists. }
  destruct (JS.startsWith (Req.url req) "/sse"); [by right|].
  destruct (JS.startsWith (Req.url req) "/config"); left; by eexists.
Qed.

Lemma has_cors_json table :
  has_cors table → has_cors (Res.merge application_json table).
Proof.
  intros (Ho & Hm & Hh).
  change (Res.merge application_json table)
    with (<["content-type" := "application/json"]> table).
  unfold has_cors. by simplify_map_eq.
Qed.

Lemma has_cors_head table ur :
  has_cors table → has_cors (Res.merge (snd (response_head ur)) table).
Proof.
  intros (Ho & Hm & Hh). rewrite merge_head. unfold has_cors. by simplify_map_eq.
Qed.

(** No listener removes or changes a CORS header. *)
Lemma dispatch_has_cors s ev :
  has_cors (Res.headers (res s)) → has_cors (Res.headers (res (dispatch s ev))).
Proof.
  intros Hc. open_session s.
  all: destruct ev; unfold_listeners; by_cases; auto using has_cors_json.
  all: match goal with ur : Ur.t |- _ => exact (has_cors_head _ ur Hc) end.
Qed.

Lemma run_has_cors evs s :
  has_cors (Res.headers (res s)) → has_cors (Res.headers (res (run s evs))).
Proof.
  revert s. induction evs as [|ev evs IH]; intros s Hc; [done|].
  rewrite run_cons. by apply IH, dispatch_has_cors.
Qed.

Lemma handle_has_cors `{P : Platform} req : has_cors (Res.headers (res (handle req Res.fresh))).
Proof.
  destruct (handle_outcome req) as [e| |u t target]; try done.
  unfold relay_session. by destruct (String.eqb (Req.method req) "POST").
Qed.

(** X5. Whatever the request and whatever happens afterwards, the
    response the server gives carries the three CORS headers with their
    fixed values: on the immediate answers, on the 400, 500 and 502 of
    [proxySSE], and on a relayed response, whose head sets the origin
    header again to the same value. *)
Theorem every_response_carries_cors `{P : Platform} (now : string) (req : Req.t)
    (evs : list Event) :
  let r := res (run (served now req) evs) in
  Res.headers r !! "access-control-allow-origin" = Some "*"
  ∧ Res.headers r !! "access-control-allow-methods" = Some "GET,POST,OPTIONS,HEAD"
  ∧ Res.headers r !! "access-control-allow-headers"
    = Some "Content-Type, Authorization, Accept, Cache-Control".
Proof.
  intros r. subst r. apply run_has_cors.
  destruct (served_cases now req) as [(r & -> & _ & _ & Hc) | ->]; [done|].
  apply handle_has_cors.
Qed.

(** ** [proxySSE] as a whole *)

(** X6. No exception escapes [proxySSE], in whatever state it finds the
    response, nor the request listener on a fresh response: what the
    [try] block throws is answered by the [catch] block, whose own call
    of [writeHead] is guarded. *)
Theorem no_exception_escapes `{P : Platform} (now : string) (req : Req.t) (s : Session) :
  fst (proxySSE req s) = JS.Normal tt
  ∧ fst (server now req (start Res.fresh)) = JS.Normal tt.
Proof.
  assert (∀ s0, fst (proxySSE req s0) = JS.Normal tt) as Hproxy.
  { intros s0. unfold proxySSE, try_catch.
    destruct (proxySSE_body req s0) as [[[]|e] s1]; [done|].
    unfold proxySSE_catch. unfold_listeners.
    destruct (Res.headersSent (res s1)) eqn:Hsent; simpl; rewrite ?Hsent; simpl.
    - by destruct (Res.finished (res s1)).
    - by destruct (Res.finished (res s1)). }
  split; [apply Hproxy|].
  unfold server.
  destruct (String.eqb (Req.method req) "OPTIONS" || String.eqb (Req.method req) "HEAD")%bool;
    [done|].
  destruct (JS.startsWith (Req.url req) "/health"); [done|].
  destruct (JS.startsWith (Req.url req) "/sse"); [apply Hproxy|].
  by destruct (JS.startsWith (Req.url req) "/config").
Qed.

(** X7. When [proxySSE] returns on a fresh response, one of two things
    has happened. Either it has answered: the response is ended with
    status 400 or 500, content type [application/json] and a one-chunk
    body, and there is no outbound request. Or it relays: the outbound
    request exists with its ['error'] listener, the body listeners are
    registered exactly when the method is POST, and nothing has been
    sent to the caller yet, neither head nor body. *)
Theorem proxySSE_answers_or_relays `{P : Platform} (req : Req.t) :
  let s := handle req Res.fresh in
  (upstream s = None
   ∧ Res.finished (res s) = true
   ∧ (Res.statusCode (res s) = 400 ∨ Res.statusCode (res s) = 500)
   ∧ Res.headers (res s) !! "content-type" = Some "application/json"
   ∧ List.length (Res.body (res s)) = 1%nat)
  ∨ (is_Some (upstream s)
     ∧ on_error s = true
     ∧ on_body s = String.eqb (Req.method req) "POST"
     ∧ on_ur s = false
     ∧ Res.headersSent (res s) = false
     ∧ Res.body (res s) = []
     ∧ Res.finished (res s) = false).
Proof.
  intros s. subst s. destruct (handle_outcome req) as [e| |u t target].
  - left. repeat split; try done. by right.
  - left. repeat split; try done. by left.
  - right. unfold relay_session.
    destruct (String.eqb (Req.method req) "POST"); by repeat split.
Qed.

(** ** What has been sent stays sent *)

Lemma dispatch_committed s ev :
  Res.headersSent (res s) = true →
  Res.headersSent (res (dispatch s ev)) = true
  ∧ Res.statusCode (res (dispatch s ev)) = Res.statusCode (res s)
  ∧ Res.headers (res (dispatch s ev)) = Res.headers (res s).
Proof.
  intros Hsent. open_session s; simplify_eq.
  all: destruct ev; unfold_listeners; by_cases.
Qed.

(** X8. Once the head of the caller's response is committed, no event
    changes it: in any session, after any events, the head is still
    committed with the same status code and the same header table. The
    listeners for failures write a head only while it is pending, and
    the response callback, which writes it without asking, throws
    without changing it. *)
Theorem committed_head_is_final (s : Session) (evs : list Event) :
  Res.headersSent (res s) = true →
  Res.headersSent (res (run s evs)) = true
  ∧ Res.statusCode (res (run s evs)) = Res.statusCode (res s)
  ∧ Res.headers (res (run s evs)) = Res.headers (res s).
Proof.
  revert s. induction evs as [|ev evs IH]; intros s Hsent; [done|].
  destruct (dispatch_committed s ev Hsent) as (Hsent' & Hstatus & Hheaders).
  destruct (IH _ Hsent') as (? & ? & ?).
  rewrite run_cons. repeat split; congruence.
Qed.

Lemma committed_head_is_final_witness :
  let s := run (@handle Reference.platform Sample.get_echo Res.fresh)
               [UpResponse Sample.event_stream] in
  let evs := [UpError Sample.hang_up; UpResponse Sample.json_with_extras; UrData "late"] in
  Res.headersSent (res (run s evs)) = true
  ∧ Res.statusCode (res (run s evs)) = Res.statusCode (res s)
  ∧ Res.headers (res (run s evs)) = Res.headers (res s).
Proof.
  apply (committed_head_is_final
           (run (@handle Reference.platform Sample.get_echo Res.fresh)
                [UpResponse Sample.event_stream])
           [UpError Sample.hang_up; UpResponse Sample.json_with_extras; UrData "late"]).
  reflexivity.
Defined.

Lemma dispatch_finished s ev :
  Res.headersSent (res s) = true →
  Res.finished (res s) = true →
  res (dispatch s ev) = res s.
Proof.
  intros Hsent Hfin. open_session s; simplify_eq.
  all: destruct ev; unfold_listeners; by_cases.
Qed.

(** X9. Once the caller's response of a session [proxySSE] started is
    ended, it never changes again: a later failure of the outbound
    request, a late chunk or a second end add nothing to the body and
    leave status and headers alone. *)
Theorem ended_response_is_final `{P : Platform} (req : Req.t) (before after : list Event) :
  let s := run (handle req Res.fresh) before in
  Res.finished (res s) = true →
  res (run s after) = res s.
Proof.
  intros s Hfin.
  assert (Res.headersSent (res s) = true) as Hsent.
  { destruct (reachable_sound req before) as [_ Hpending]. fold s in Hpending.
    destruct (Res.headersSent (res s)); [done|].
    destruct Hpending as (_ & Hopen & _); congruence. }
  clearbody s. revert s Hfin Hsent.
  induction after as [|ev after IH]; intros s Hfin Hsent; [done|].
  pose proof (dispatch_finished s ev Hsent Hfin) as Hsame.
  rewrite run_cons, IH; rewrite ?Hsame; done.
Qed.

Lemma ended_response_is_final_witness :
  let s := run (@handle Reference.platform Sample.get_echo Res.fresh)
               [UpResponse Sample.event_stream; UrData "data: tick"; UrEnd] in
  res (run s [UpError Sample.hang_up; UrEnd; UrData "late"; UrError]) = res s.
Proof.
  apply (@ended_response_is_final Reference.platform Sample.get_echo
           [UpResponse Sample.event_stream; UrData "data: tick"; UrEnd]
           [UpError Sample.hang_up; UrEnd; UrData "late"; UrError]).
  reflexivity.
Defined.

Lemma dispatch_body_grows s ev :
  Res.body (res s) `prefix_of` Res.body (res (dispatch s ev)).
Proof.
  open_session s.
  all: destruct ev; unfold_listeners; by_cases; by apply prefix_app_r.
Qed.

(** X10. Nothing sent to the caller is taken back or reordered: in any
    session, the body after any events begins with the body as it was
    before them. *)
Theorem body_only_grows (s : Session) (evs : list Event) :
  Res.body (res s) `prefix_of` Res.body (res (run s evs)).
Proof.
  revert s. induction evs as [|ev evs IH]; intros s; [done|].
  rewrite run_cons. etrans; [apply dispatch_body_grows | apply IH].
Qed.

(** X11. The end of the upstream response and a failure of its stream
    both end the caller's response without writing anything: the body,
    the status code and the headers are as before, and no exception
    escapes. *)
Theorem upstream_end_and_stream_failure_are_silent (s : Session) (ev : Event) :
  ev = UrEnd ∨ ev = UrError →
  uncaught s = None →
  on_ur s = true →
  let s' := dispatch s ev in
  Res.finished (res s') = true
  ∧ Res.body (res s') = Res.body (res s)
  ∧ Res.statusCode (res s') = Res.statusCode (res s)
  ∧ Res.headers (res s') = Res.headers (res s)
  ∧ uncaught s' = None.
Proof.
  intros Hev Halive Hur. open_session s; simplify_eq.
  all: destruct Hev as [-> | ->]; unfold_listeners; by_cases; by rewrite ?app_nil_r.
Qed.

Lemma upstream_end_and_stream_failure_are_silent_witness :
  let s := run (@handle Reference.platform Sample.get_echo Res.fresh)
               [UpResponse Sample.event_stream; UrData "data: tick"] in
  let s' := dispatch s UrError in
  Res.finished (res s') = true
  ∧ Res.body (res s') = Res.body (res s)
  ∧ Res.statusCode (res s') = Res.statusCode (res s)
  ∧ Res.headers (res s') = Res.headers (res s)
  ∧ uncaught s' = None.
Proof.
  apply (upstream_end_and_stream_failure_are_silent
           (run (@handle Reference.platform Sample.get_echo Res.fresh)
                [UpResponse Sample.event_stream; UrData "data: tick"]) UrError).
  - right. reflexivity.
  - reflexivity.
  - reflexivity.
Defined.

(** ** The outbound request and its failures to start *)

Lemma search_or_empty (s : string) : JS.or_else (Some s) EmptyString = s.
Proof. by destruct s. Qed.

(** X12. The outbound request follows the parsed target: the client is
    the encrypted one exactly when the protocol is [https:]; the method
    is the caller's; protocol and host name are the target's; the path
    is the target's path followed by its query; and the port is the one
    the target names or else 443 for [https:] and 80 for anything else.
    None of this changes while the session lasts. *)
Theorem outbound_request_follows_target `{P : Platform} (req : Req.t) (u t : URL.t)
    (target : string) (evs : list Event) :
  URL_new (Req.url req) (Some (base_of req)) = JS.Normal u →
  URL.get u "url" = Some target →
  target ≠ EmptyString →
  URL_new target None = JS.Normal t →
  request_check (select_client t) (make_options req t) = None →
  ∃ up, upstream (run (handle req Res.fresh) evs) = Some up
    ∧ (URL.protocol t = "https:" → Up.client up = https)
    ∧ (URL.protocol t ≠ "https:" → Up.client up = http)
    ∧ Options.method (Up.options up) = Req.method req
    ∧ Options.protocol (Up.options up) = URL.protocol t
    ∧ Options.hostname (Up.options up) = URL.hostname t
    ∧ Options.path (Up.options up) = URL.pathname t +:+ URL.search t
    ∧ (URL.port t ≠ EmptyString → Options.port (Up.options up) = PortString (URL.port t))
    ∧ (URL.port t = EmptyString → URL.protocol t = "https:" →
       Options.port (Up.options up) = PortNumber 443)
    ∧ (URL.port t = EmptyString → URL.protocol t ≠ "https:" →
       Options.port (Up.options up) = PortNumber 80).
Proof.
  intros Hu Hg Hne Ht Hc.
  rewrite (handle_relay req u target t Hu Hg Hne Ht Hc).
  destruct (relay_session_upstream req t) as (up0 & Hup0 & Ho & Hcl).
  destruct (run_upstream evs _ _ Hup0) as (up & Hup & Hcl' & Ho' & _).
  exists up. split; [done|]. rewrite Hcl', Ho', Hcl, Ho.
  unfold select_client, make_options, is_https.
  cbn [Options.method Options.protocol Options.hostname Options.path Options.port].
  rewrite search_or_empty.
  repeat split; try done.
  - intros ->. reflexivity.
  - intros Hp. apply String.eqb_neq in Hp. by rewrite Hp.
  - intros Hport. by destruct (URL.port t).
  - intros -> ->. reflexivity.
  - intros -> Hp. apply String.eqb_neq in Hp. by rewrite Hp.
Qed.

Lemma outbound_request_follows_target_witness :
  ∃ up, upstream (run (@handle Reference.platform Route.get_secure Res.fresh)
                      [UpResponse Sample.event_stream]) = Some up
    ∧ Up.client up = https
    ∧ Options.method (Up.options up) = "DELETE"
    ∧ Options.hostname (Up.options up) = "api.example"
    ∧ Options.path (Up.options up) = "/v1/events?since=7"
    ∧ Options.port (Up.options up) = PortNumber 443.
Proof.
  destruct (@outbound_request_follows_target Reference.platform Route.get_secure
              (URL.mk "http:" "localhost" "6277" "/sse"
                      "?url=https://api.example/v1/events?since=7"
                      [("url", "https://api.example/v1/events?since=7")])
              Route.secure_url "https://api.example/v1/events?since=7"
              [UpResponse Sample.event_stream])
    as (up & Hup & Hs & _ & Hm & _ & Hh & Hpath & _ & Hport & _);
    [reflexivity | reflexivity | discriminate | reflexivity | reflexivity |].
  exists up. split; [exact Hup|].
  split; [by apply Hs|]. split; [exact Hm|]. split; [exact Hh|]. split; [exact Hpath|].
  by apply Hport.
Defined.

(** X13. An exception thrown before any outbound request exists, by the
    parse of the request URL or by [client.request] refusing the
    options, is answered by the [catch] block: status 500, content type
    [application/json], the body [{"error":"proxy error","message":...}]
    with the message of the exception, or [unknown] when that message is
    empty; the response is ended and there is no outbound request, then
    or after any event. *)
Theorem early_exceptions_answer_500 `{P : Platform} (req : Req.t) (e : JS.Error) :
  URL_new (Req.url req) (Some (base_of req)) = JS.Throw e
  ∨ (∃ u target t,
       URL_new (Req.url req) (Some (base_of req)) = JS.Normal u
       ∧ URL.get u "url" = Some target
       ∧ target ≠ EmptyString
       ∧ URL_new target None = JS.Normal t
       ∧ request_check (select_client t) (make_options req t) = Some e) →
  let s := handle req Res.fresh in
  Res.statusCode (res s) = 500
  ∧ Res.headers (res s) !! "content-type" = Some "application/json"
  ∧ (JS.message e ≠ EmptyString →
     Res.body (res s)
     = [JSON.stringify [("error", JSON.Str "proxy error");
                        ("message", JSON.Str (JS.message e))]])
  ∧ (JS.message e = EmptyString →
     Res.body (res s)
     = [JSON.stringify [("error", JSON.Str "proxy error"); ("message", JSON.Str "unknown")]])
  ∧ Res.finished (res s) = true
  ∧ ∀ evs, upstream (run s evs) = None.
Proof.
  intros Hthrown s.
  assert (s = start (json_reply 500 (proxy_error e))) as ->.
  { destruct Hthrown as [Hu | (u & target & t & Hu & Hg & Hne & Ht & Hc)].
    - by apply handle_unparsed_request.
    - by apply (handle_rejected req u target t e). }
  repeat split; try done.
  - intros Hm. simpl. unfold proxy_error. by rewrite (or_else_supplied _ _ Hm).
  - intros Hm. simpl. unfold proxy_error. by rewrite Hm.
  - intros evs. by rewrite run_inert.
Qed.

Lemma early_exceptions_answer_500_witness :
  let s := @handle Reference.platform Route.get_ftp Res.fresh in
  Res.statusCode (res s) = 500
  ∧ Res.headers (res s) !! "content-type" = Some "application/json"
  ∧ Res.body (res s)
    = [JSON.stringify
         [("error", JSON.Str "proxy error");
          ("message", JSON.Str ("Protocol " +:+ dq +:+ "ftp:" +:+ dq +:+ " not supported. Expected "
                                  +:+ dq +:+ "http:" +:+ dq))]]
  ∧ Res.finished (res s) = true
  ∧ ∀ evs, upstream (run s evs) = None.
Proof.
  destruct (@early_exceptions_answer_500 Reference.platform Route.get_ftp
              (JS.mkError ("Protocol " +:+ dq +:+ "ftp:" +:+ dq +:+ " not supported. Expected "
                             +:+ dq +:+ "http:" +:+ dq)))
    as (Hstatus & Htype & Hbody & _ & Hfin & Hup).
  { right.
    exists (URL.mk "http:" "localhost" "6277" "/sse" "?url=ftp://files.example/pub"
                   [("url", "ftp://files.example/pub")]),
      "ftp://files.example/pub",
      (URL.mk "ftp:" "files.example" EmptyString "/pub" EmptyString []).
    repeat split. discriminate. }
  split; [exact Hstatus|]. split; [exact Htype|]. split; [|split; [exact Hfin | exact Hup]].
  apply Hbody. discriminate.
Defined.

(** ** The two directions of a relay *)

Lemma dispatch_on_error s ev : on_error (dispatch s ev) = on_error s.
Proof. open_session s; destruct ev; unfold_listeners; by_cases. Qed.

Lemma dispatch_no_upstream s ev : upstream s = None → upstream (dispatch s ev) = None.
Proof.
  intros Hup. open_session s; simplify_eq.
  all: destruct ev; unfold_listeners; by_cases.
Qed.

Lemma dispatch_is_Some_upstream s ev : is_Some (upstream (dispatch s ev)) ↔ is_Some (upstream s).
Proof.
  destruct (upstream s) as [up|] eqn:Hup.
  - destruct (dispatch_upstream s ev up Hup) as (up' & -> & _). split; eauto.
  - by rewrite (dispatch_no_upstream s ev Hup).
Qed.

(** An event of the caller's side keeps a calm session as it is on the
    response side. *)
Lemma same_side_inbound s1 s2 ev evs :
  is_inbound ev = true →
  calm s1 (ev :: evs) = true →
  same_response_side s1 s2 →
  same_response_side (dispatch s1 ev) s2.
Proof.
  intros Hev Hcalm (Hr & Hu & He & Ha & Hup).
  destruct (inbound_keeps_res s1 ev evs Hev Hcalm) as (Hr' & Hu' & Ha').
  unfold same_response_side.
  rewrite Hr', Hu', Ha', dispatch_on_error, dispatch_is_Some_upstream. done.
Qed.

(** The listeners of the upstream's side act alike on sessions that
    agree on the response side. *)
Lemma same_side_step s1 s2 ev :
  is_inbound ev = false →
  same_response_side s1 s2 →
  same_response_side (dispatch s1 ev) (dispatch s2 ev).
Proof.
  intros Hev (Hr & Hu & He & Ha & Hup). unfold same_response_side.
  open_session s1; open_session s2; simplify_eq.
  all: try (exfalso; apply (is_Some_None (A:=Up.t)); apply Hup; by eauto).
  all: destruct ev; try done; unfold_listeners; by_cases.
  all: repeat split; eauto.
Qed.

(** An event that is not of the inbound body acts alike on sessions
    that agree on the response side; the caller going away acts on
    neither. *)
Lemma same_side_other s1 s2 ev :
  is_body_event ev = false →
  same_response_side s1 s2 →
  same_response_side (dispatch s1 ev) (dispatch s2 ev).
Proof.
  intros Hev Hsame. destruct (is_inbound ev) eqn:Hin; [|by apply same_side_step].
  destruct ev; try done.
  assert (∀ s, dispatch s ReqClose = s) as Hclose.
  { intros s. unfold dispatch. simpl. by destruct (uncaught s). }
  by rewrite !Hclose.
Qed.

Lemma run_same_side evs s1 s2 :
  same_response_side s1 s2 →
  calm s1 evs = true →
  same_response_side (run s1 evs) (run s2 (without_body evs)).
Proof.
  revert s1 s2. induction evs as [|ev evs IH]; intros s1 s2 Hsame Hcalm; [done|].
  pose proof (calm_step _ _ _ Hcalm) as Hcalm'.
  rewrite run_cons. simpl. destruct (is_body_event ev) eqn:Hev.
  - apply IH; [|done]. apply (same_side_inbound s1 s2 ev evs); [|done..].
    by destruct ev.
  - rewrite run_cons. apply IH; [|done]. by apply same_side_other.
Qed.

Lemma handle_calm `{P : Platform} req evs :
  inbound_ok evs = true → calm (handle req Res.fresh) evs = true.
Proof.
  intros Hok. destruct (handle_outcome req) as [e| |u t target]; try done.
  unfold relay_session, calm. by destruct (String.eqb (Req.method req) "POST").
Qed.

(** X15. What the proxy writes to the caller does not depend on the
    request body. While the inbound stream delivers nothing after its
    end, the response after any events is the response after the same
    events with the chunks and the end of the inbound body left out:
    the head, the chunks written, and whether the response is ended are
    the same. Posted chunks and the end of the body never reach the
    response. *)
Theorem response_ignores_the_request_body `{P : Platform} (req : Req.t) (evs : list Event) :
  inbound_ok evs = true →
  res (run (handle req Res.fresh) evs) = res (run (handle req Res.fresh) (without_body evs)).
Proof.
  intros Hok.
  destruct (run_same_side evs (handle req Res.fresh) (handle req Res.fresh))
    as (Hr & _); [done | by apply handle_calm | done].
Qed.

Lemma response_ignores_the_request_body_witness :
  let evs := [ReqData "a=1"; UpResponse Sample.event_stream; ReqData "&b=2";
              UrData "data: tick"; ReqEnd; UrEnd] in
  without_body evs = [UpResponse Sample.event_stream; UrData "data: tick"; UrEnd]
  ∧ res (run (@handle Reference.platform Sample.post_echo Res.fresh) evs)
    = res (run (@handle Reference.platform Sample.post_echo Res.fresh) (without_body evs)).
Proof.
  split; [reflexivity|].
  apply (@response_ignores_the_request_body Reference.platform Sample.post_echo
           [ReqData "a=1"; UpResponse Sample.event_stream; ReqData "&b=2";
            UrData "data: tick"; ReqEnd; UrEnd]).
  reflexivity.
Defined.

(** ** [cors] *)

Lemma with_cors_has_cors table : has_cors (with_cors table).
Proof. unfold has_cors, with_cors. by simplify_map_eq. Qed.

Lemma with_cors_other table name :
  name ∉ cors_names → with_cors table !! name = table !! name.
Proof.
  unfold cors_names, with_cors. intros Hname.
  rewrite !not_elem_of_union, !not_elem_of_singleton in Hname.
  destruct Hname as [[Ho Hm] Hh].
  by rewrite !lookup_insert_ne.
Qed.

Lemma with_cors_twice table : with_cors (with_cors table) = with_cors table.
Proof.
  apply map_eq. intros name.
  destruct (decide (name ∈ cors_names)) as [Hin|Hout].
  - unfold cors_names in Hin.
    rewrite !elem_of_union, !elem_of_singleton in Hin.
    destruct Hin as [[-> | ->] | ->]; unfold with_cors; by simplify_map_eq.
  - by rewrite !(with_cors_other _ _ Hout).
Qed.

(** X16. While the head is pending, [cors] stores its three headers in
    the header table, replacing earlier values of them and keeping
    every other header, and changes nothing else; doing it again changes
    nothing. Once the head is committed, [cors] throws and leaves the
    response as it is. *)
Theorem cors_stores_three_headers (s : Session) :
  (Res.headersSent (res s) = false →
   ∃ s', cors s = (JS.Normal tt, s')
         ∧ has_cors (Res.headers (res s'))
         ∧ (∀ name, name ∉ cors_names →
              Res.headers (res s') !! name = Res.headers (res s) !! name)
         ∧ Res.headersSent (res s') = false
         ∧ Res.statusCode (res s') = Res.statusCode (res s)
         ∧ Res.body (res s') = Res.body (res s)
         ∧ Res.finished (res s') = Res.finished (res s)
         ∧ upstream s' = upstream s
         ∧ cors s' = (JS.Normal tt, s'))
  ∧ (Res.headersSent (res s) = true →
     cors s = (JS.Throw Res.ERR_HTTP_HEADERS_SENT, s)).
Proof.
  split; intros Hsent.
  - exists (set_res (Res.mk false (Res.statusCode (res s)) (with_cors (Res.headers (res s)))
                            (Res.body (res s)) (Res.finished (res s))) s).
    assert (∀ s0, Res.headersSent (res s0) = false →
                  cors s0 = (JS.Normal tt,
                             set_res (Res.mk false (Res.statusCode (res s0))
                                             (with_cors (Res.headers (res s0)))
                                             (Res.body (res s0)) (Res.finished (res s0))) s0))
      as Hcors.
    { intros s0 Hs0. destruct s0 as [[hs sc hd bd fin] up oe ob ou unc].
      simpl in Hs0. subst hs. reflexivity. }
    split; [by apply Hcors|].
    split; [apply with_cors_has_cors|].
    split; [intros name Hname; by apply with_cors_other|].
    repeat split.
    rewrite Hcors by done. simpl. by rewrite with_cors_twice.
  - destruct s as [[hs sc hd bd fin] up oe ob ou unc]. simpl in Hsent. subst hs.
    reflexivity.
Qed.

Lemma cors_stores_three_headers_witness :
  let s := start (Res.mk false 200 (<["access-control-allow-origin" := "https://a.example"]>
                                     {[ "x-powered-by" := "node" ]}) [] false) in
  ∃ s', cors s = (JS.Normal tt, s')
        ∧ Res.headers (res s') !! "access-control-allow-origin" = Some "*"
        ∧ Res.headers (res s') !! "x-powered-by" = Some "node"
        ∧ cors s' = (JS.Normal tt, s')
        ∧ cors (run (@handle Reference.platform Sample.get_no_target Res.fresh) [])
          = (JS.Throw Res.ERR_HTTP_HEADERS_SENT,
             run (@handle Reference.platform Sample.get_no_target Res.fresh) []).
Proof.
  destruct (cors_stores_three_headers
              (start (Res.mk false 200 (<["access-control-allow-origin" := "https://a.example"]>
                                          {[ "x-powered-by" := "node" ]}) [] false)))
    as [Hpending _].
  destruct (Hpending eq_refl) as (s' & Hs' & (Ho & _) & Hother & _ & _ & _ & _ & _ & Hagain).
  exists s'. split; [exact Hs'|]. split; [exact Ho|].
  split.
  { rewrite Hother; [reflexivity|]. unfold cors_names.
    rewrite !not_elem_of_union, !not_elem_of_singleton. by repeat split. }
  split; [exact Hagain|].
  apply (cors_stores_three_headers
           (run (@handle Reference.platform Sample.get_no_target Res.fresh) [])).
  reflexivity.
Defined.
